(** * GPflow: [gpflow/misc.py] and [gpflow/models/sgpmc.py]

    A shallow embedding of the utility predicates, the numeric-type
    normaliser, the vector-to-triangular packer and the SGPMC model, with
    the properties stated about them. *)

From Stdlib Require Import ZArith PrimFloat.
From stdpp Require Import base decidable option list strings.

Set Default Proof Using "Type".
Set Warnings "-register-all".
Open Scope string_scope.

(** ** Results of fallible code *)

(** The exceptions the modelled code (or the primitives it calls) raises. *)
Inductive exn :=
| ValueError (msg : string)
| IndexError (msg : string)
| AttributeError (msg : string)
| MemoryError
| ScatterShapeError (indices_shape updates_shape : list nat) (shape : nat * nat)
| ScatterIndexError (shape : nat * nat).

(** The Python class of an exception. The two failures of the scatter
    primitive are recorded by what failed, their text being the
    framework's: its shape check raises a [ValueError], an index outside
    the output an [InvalidArgumentError]. *)
Definition exn_class (e : exn) : string :=
  match e with
  | ValueError _ => "ValueError"
  | IndexError _ => "IndexError"
  | AttributeError _ => "AttributeError"
  | MemoryError => "MemoryError"
  | ScatterShapeError _ _ _ => "ValueError"
  | ScatterIndexError _ => "InvalidArgumentError"
  end.

Inductive result (A : Type) :=
| Ok (a : A)
| Raise (e : exn).
Arguments Ok {A} a.
Arguments Raise {A} e.

Definition result_bind {A B} (r : result A) (k : A → result B) : result B :=
  match r with
  | Ok a => k a
  | Raise e => Raise e
  end.

#[global] Instance result_ret : MRet result := @Ok.
#[global] Instance result_mbind : MBind result := λ A B k r, result_bind r k.
#[global] Instance result_fmap : FMap result := λ A B f r,
  match r with
  | Ok a => Ok (f a)
  | Raise e => Raise e
  end.

Definition raises {A} (r : result A) : Prop := ∃ e, r = Raise e.

(** [[f(x) for x in xs]] where [f] may raise: the first exception wins. *)
Fixpoint result_map {A B} (f : A → result B) (xs : list A) : result (list B) :=
  match xs with
  | [] => Ok []
  | x :: xs' =>
      result_bind (f x) (λ y,
      result_bind (result_map f xs') (λ ys, Ok (y :: ys)))
  end.

(** ** Python values, as far as [misc.py] inspects them *)

Module Py.

(** numpy's sized scalar types, the classes below [np.generic]. *)
Inductive np_type :=
| np_bool_
| np_int8 | np_int16 | np_int32 | np_int64
| np_uint8 | np_uint16 | np_uint32 | np_uint64
| np_float16 | np_float32 | np_float64
| np_complex64 | np_complex128
| np_object_.

#[global] Instance np_type_eq_dec : EqDecision np_type.
Proof. solve_decision. Defined.

(** The classes [isinstance] is asked about, and those of the values. *)
Inductive pyclass :=
| C_object
| C_NoneType
| C_bool | C_int | C_float | C_complex
| C_Number                      (* numbers.Number *)
| C_str | C_bytes
| C_list | C_tuple
| C_ndarray                     (* np.ndarray *)
| C_generic                     (* np.generic *)
| C_np (t : np_type)
| C_Tensor | C_Variable         (* tf.Tensor, tf.Variable *)
| C_DType.                      (* tf.DType *)

#[global] Instance pyclass_eq_dec : EqDecision pyclass.
Proof. solve_decision. Defined.

(** A value carries the data of its class; the predicates only look at
    the class, and at the items of a list. *)
Inductive pyval :=
| PyNone
| PyBool (b : bool)
| PyInt (n : Z)
| PyFloat (x : float)
| PyComplex (re im : float)
| PyStr (s : string)
| PyBytes (s : string)
| PyList (items : list pyval)
| PyTuple (items : list pyval)
| NpScalar (t : np_type) (bits : Z)
| NdArray (dtype : np_type) (shape : list nat)
| TfTensor (name : string)
| TfVariable (name : string)
| PyObject (id : positive).

(** [type(v)]. *)
Definition type_of (v : pyval) : pyclass :=
  match v with
  | PyNone => C_NoneType
  | PyBool _ => C_bool
  | PyInt _ => C_int
  | PyFloat _ => C_float
  | PyComplex _ _ => C_complex
  | PyStr _ => C_str
  | PyBytes _ => C_bytes
  | PyList _ => C_list
  | PyTuple _ => C_tuple
  | NpScalar t _ => C_np t
  | NdArray _ _ => C_ndarray
  | TfTensor _ => C_Tensor
  | TfVariable _ => C_Variable
  | PyObject _ => C_object
  end.

(** The classes a class is a subclass of, itself first: [bool] is an
    [int]; [np.float64] is also a [float] and [np.complex128] a [complex];
    the numeric built-ins, and numpy's numbers, are registered with
    [numbers.Number]. *)
Definition mro (c : pyclass) : list pyclass :=
  match c with
  | C_bool => [C_bool; C_int; C_Number; C_object]
  | C_int => [C_int; C_Number; C_object]
  | C_float => [C_float; C_Number; C_object]
  | C_complex => [C_complex; C_Number; C_object]
  | C_np np_float64 =>
      [C_np np_float64; C_generic; C_float; C_Number; C_object]
  | C_np np_complex128 =>
      [C_np np_complex128; C_generic; C_complex; C_Number; C_object]
  | C_np np_bool_ => [C_np np_bool_; C_generic; C_object]
  | C_np np_object_ => [C_np np_object_; C_generic; C_object]
  | C_np t => [C_np t; C_generic; C_Number; C_object]
  | C_object => [C_object]
  | c => [c; C_object]
  end.

(** [isinstance(v, classes)], [classes] a tuple of classes. *)
Definition isinstance (v : pyval) (classes : list pyclass) : bool :=
  existsb (λ c, bool_decide (c ∈ mro (type_of v))) classes.

(** [np.ScalarType]: the built-in scalar classes and numpy's own. *)
Definition ScalarType (c : pyclass) : bool :=
  match c with
  | C_int | C_float | C_complex | C_bool | C_bytes | C_str => true
  | C_np _ => true
  | _ => false
  end.

(** [np.isscalar(v)]. *)
Definition np_isscalar (v : pyval) : bool :=
  isinstance v [C_generic] || ScalarType (type_of v) || isinstance v [C_Number].

(** [v is None]. *)
Definition is_None (v : pyval) : bool :=
  match v with PyNone => true | _ => false end.

End Py.
Import Py.

(** ** [misc.py]: the predicates *)

Definition is_ndarray (value : pyval) : bool :=
  isinstance value [C_ndarray].

Definition is_list (value : pyval) : bool :=
  isinstance value [C_list].

Definition is_tensor (value : pyval) : bool :=
  isinstance value [C_Tensor; C_Variable].

Definition is_number (value : pyval) : bool :=
  negb (isinstance value [C_str]) && np_isscalar value.

(** The items of a list object; nothing else is an instance of [list]
    here. *)
Definition list_items (v : pyval) : option (list pyval) :=
  match v with PyList items => Some items | _ => None end.

(** Python's [a and b or c or d] groups as [((a and b) or c) or d], which
    is how [&&] and [||] group below. *)
Definition is_valid_param_value (value : pyval) : bool :=
  match list_items value with
  | Some items =>                           (* isinstance(value, list) *)
      match items with
      | [] => false                         (* not value *)
      | zero_val :: rest =>
          let arrays := [C_list; C_ndarray] in
          let scalars := [C_float; C_int] in
          let types :=
            if isinstance zero_val scalars then Some scalars
            else if isinstance zero_val arrays then Some arrays
            else None in
          match types with
          | None => false
          | Some types => forallb (λ val, isinstance val types) rest
          end
      end
  | None =>
      (negb (is_None value)
       && is_number value
       || is_ndarray value
       || is_tensor value)%bool
  end.

(** ** [misc.py]: the numeric-type normaliser *)

(** The process-wide [settings] the normaliser reads. *)
Record Settings := {
  float_type : np_type;
  int_type : np_type;
}.

(** The framework's dtype handles. *)
Inductive tf_dtype :=
| tf_bool
| tf_int8 | tf_int16 | tf_int32 | tf_int64
| tf_uint8 | tf_uint16
| tf_float16 | tf_float32 | tf_float64
| tf_complex64 | tf_complex128
| tf_string.

(** What [d.as_numpy_dtype] is: the numpy scalar class of the handle
    itself (not a [np.dtype] object), and the built-in [object] for
    strings. *)
Inductive numpy_class :=
| NpClass (t : np_type)
| BuiltinObject.

Definition as_numpy_dtype (d : tf_dtype) : numpy_class :=
  match d with
  | tf_bool => NpClass np_bool_
  | tf_int8 => NpClass np_int8
  | tf_int16 => NpClass np_int16
  | tf_int32 => NpClass np_int32
  | tf_int64 => NpClass np_int64
  | tf_uint8 => NpClass np_uint8
  | tf_uint16 => NpClass np_uint16
  | tf_float16 => NpClass np_float16
  | tf_float32 => NpClass np_float32
  | tf_float64 => NpClass np_float64
  | tf_complex64 => NpClass np_complex64
  | tf_complex128 => NpClass np_complex128
  | tf_string => BuiltinObject
  end.

(** A type descriptor: a numpy class, or a framework handle. *)
Inductive num_type :=
| Native (t : np_type)
| TfDType (d : tf_dtype).

(** [__name__] of a numpy class, and [str] of the class. *)
Definition np_name (t : np_type) : string :=
  match t with
  | np_bool_ => "bool_"
  | np_int8 => "int8"
  | np_int16 => "int16"
  | np_int32 => "int32"
  | np_int64 => "int64"
  | np_uint8 => "uint8"
  | np_uint16 => "uint16"
  | np_uint32 => "uint32"
  | np_uint64 => "uint64"
  | np_float16 => "float16"
  | np_float32 => "float32"
  | np_float64 => "float64"
  | np_complex64 => "complex64"
  | np_complex128 => "complex128"
  | np_object_ => "object_"
  end.

Definition np_str (t : np_type) : string :=
  "<class 'numpy." ++ np_name t ++ "'>".

Definition dquote : string := String (Ascii.ascii_of_nat 34) EmptyString.

(** ['Unknown dtype "{0}" passed to normalizer.'.format(t)] *)
Definition unknown_dtype_msg (t : np_type) : string :=
  "Unknown dtype " ++ dquote ++ np_str t ++ dquote ++ " passed to normalizer.".

(** [cls.type] for the class [cls] that [as_numpy_dtype] gives: these
    classes have no attribute [type] (a [np.dtype] object has one, the
    classes do not), so the lookup raises. *)
Definition class_qualname (c : numpy_class) : string :=
  match c with
  | NpClass t => "numpy." ++ np_name t
  | BuiltinObject => "object"
  end.

Definition getattr_type (c : numpy_class) : result np_type :=
  Raise (AttributeError
           ("type object '" ++ class_qualname c ++ "' has no attribute 'type'")).

(** [d.as_numpy_dtype.type], as the code evaluates it on a handle. *)
Definition as_numpy_dtype_type (d : tf_dtype) : result np_type :=
  getattr_type (as_numpy_dtype d).

(** Unwrapping a descriptor. For a framework handle the code evaluates
    [num_type.as_numpy_dtype.type]; [normalize_num_type] takes the two
    lookups as [numpy_type_of], and the code is its instance at
    [as_numpy_dtype_type]. *)
Definition unwrap (numpy_type_of : tf_dtype → result np_type)
    (num_type : num_type) : result np_type :=
  match num_type with
  | TfDType d => numpy_type_of d           (* isinstance(num_type, tf.DType) *)
  | Native t => Ok t
  end.

Definition normalize_num_type (numpy_type_of : tf_dtype → result np_type)
    (settings : Settings) (num_type : num_type) : result np_type :=
  num_type ← unwrap numpy_type_of num_type;
  if bool_decide (num_type ∈ [np_float32; np_float64]) then
    Ok (float_type settings)
  else if bool_decide (num_type ∈ [np_int16; np_int32; np_int64]) then
    Ok (int_type settings)
  else
    Raise (ValueError (unknown_dtype_msg num_type)).

(** What the prose calls a type: its kind and its width in bits. *)
Inductive np_kind := Boolean | SignedInt | UnsignedInt | Floating | Complex | Object.

Definition kind_of (t : np_type) : np_kind :=
  match t with
  | np_bool_ => Boolean
  | np_int8 | np_int16 | np_int32 | np_int64 => SignedInt
  | np_uint8 | np_uint16 | np_uint32 | np_uint64 => UnsignedInt
  | np_float16 | np_float32 | np_float64 => Floating
  | np_complex64 | np_complex128 => Complex
  | np_object_ => Object
  end.

Definition bits_of (t : np_type) : nat :=
  match t with
  | np_bool_ | np_int8 | np_uint8 => 8
  | np_int16 | np_uint16 | np_float16 => 16
  | np_int32 | np_uint32 | np_float32 => 32
  | np_int64 | np_uint64 | np_float64 | np_complex64 | np_object_ => 64
  | np_complex128 => 128
  end.

(** ** [misc.py]: [vec_to_tri] *)

(** The numpy functions [vec_to_tri] builds its index list with. *)
Module Np.

(** [np.tri(N, M, dtype=bool)]: entry [(i, j)] is set where [j <= i]. *)
Definition tri (N M : nat) : list (list bool) :=
  map (λ i, map (λ j, bool_decide (j ≤ i)%nat) (seq 0 M)) (seq 0 N).

(** [enumerate(l)]. *)
Definition enumerate {A} (l : list A) : list (nat * A) :=
  zip (seq 0 (length l)) l.

(** [np.nonzero] of a two-dimensional mask: the row indices and the column
    indices of the set entries, the entries taken in row-major order. *)
Definition nonzero (mask : list (list bool)) : list nat * list nat :=
  let hits :=
    flat_map (λ '(i, row),
      flat_map (λ '(j, b), if b : bool then [(i, j)] else []) (enumerate row))
      (enumerate mask) in
  (hits.*1, hits.*2).

(** [np.tril_indices(N)] is [nonzero(tri(N, N))]. *)
Definition tril_indices (N : nat) : list nat * list nat :=
  nonzero (tri N N).

End Np.

(** A [D x M] tensor, as [vec_to_tri] is given one: its dimensions and
    its [D] rows of [M] elements. *)
Record Batch (Scalar : Type) := {
  batch_dims : nat * nat;
  batch_rows : list (list Scalar);
}.
Arguments batch_dims {Scalar} b.
Arguments batch_rows {Scalar} b.

Definition rectangular {Scalar} (b : Batch Scalar) : Prop :=
  length (batch_rows b) = (batch_dims b).1
  ∧ Forall (λ v, length v = (batch_dims b).2) (batch_rows b).

(** An integer tensor made of index pairs, with its shape. *)
Record index_tensor := {
  index_shape : list nat;
  index_pairs : list (nat * nat);
}.

(** [tf.constant([list(i) for i in indices], dtype=tf.int64)]: [K] pairs
    give a tensor of shape [(K, 2)]; with no pair the argument is the
    empty list, and the tensor has shape [(0,)]. *)
Definition tf_constant (indices : list (nat * nat)) : index_tensor :=
  {| index_shape := match indices with
                    | [] => [0%nat]
                    | _ :: _ => [length indices; 2%nat]
                    end;
     index_pairs := indices |}.

Section Scalars.
(** The element type of arrays and tensors, with the zero that fresh
    arrays are filled with, the one, and addition. *)
Context {Scalar : Type} (szero sone : Scalar) (sadd : Scalar → Scalar → Scalar).

(** A matrix as the list of its rows. *)
Definition matrix_zeros (n m : nat) : list (list Scalar) :=
  replicate n (replicate m szero).

Definition in_shape (shape : nat * nat) (ix : nat * nat) : bool :=
  bool_decide (ix.1 < shape.1)%nat && bool_decide (ix.2 < shape.2)%nat.

(** One update of [tf.scatter_nd]: [out[r, c] += u]. *)
Definition scatter_add (out : list (list Scalar)) (iu : nat * nat * Scalar)
  : list (list Scalar) :=
  let '(r, c, u) := iu in
  alter (alter (λ x, sadd x u) c) r out.

(** [tf.scatter_nd(indices, updates, shape)] with [updates] a vector and
    [shape] two-dimensional. Indices of shape [(K, 2)] name single
    elements: the updates must then be [K], every index must lie inside
    [shape], and the updates are added, in order, into a tensor of zeros.
    With indices of any other shape (the shape [(0,)] is the one that
    occurs) a vector of updates does not fit, and the shape check
    fails. *)
Definition scatter_nd (indices : index_tensor) (updates : list Scalar)
    (shape : nat * nat) : result (list (list Scalar)) :=
  match index_shape indices with
  | [k; 2%nat] =>
      if negb (bool_decide (k = length updates)) then
        Raise (ScatterShapeError (index_shape indices) [length updates] shape)
      else if negb (forallb (in_shape shape) (index_pairs indices)) then
        Raise (ScatterIndexError shape)
      else
        Ok (fold_left scatter_add (zip (index_pairs indices) updates)
              (matrix_zeros shape.1 shape.2))
  | _ => Raise (ScatterShapeError (index_shape indices) [length updates] shape)
  end.

(** The index pairs: the two arrays of [np.tril_indices(N)] zipped. *)
Definition tril_index_tensor (N : nat) : list (nat * nat) :=
  let '(rows, cols) := Np.tril_indices N in
  zip rows cols.

Definition vec_to_tri_vector (indices : index_tensor) (N : nat)
    (vector : list Scalar) : result (list (list Scalar)) :=
  scatter_nd indices vector (N, N).

(** [tf.map_fn(fn, elems)]: the graph of [fn] is built once, for a row
    of the width the rows of [elems] have and whatever their number, and
    a failure there is raised before any row is mapped; a row of zeros
    stands for the row the graph is built for. The rows are then mapped
    in order and the results stacked. *)
Definition tf_map_fn {B} (fn : list Scalar → result B) (elems : Batch Scalar)
  : result (list B) :=
  _ ← fn (replicate (batch_dims elems).2 szero);
  result_map fn (batch_rows elems).

Definition vec_to_tri (vectors : Batch Scalar) (N : nat)
  : result (list (list (list Scalar))) :=
  let indices := tril_index_tensor N in
  let indices := tf_constant indices in
  tf_map_fn (vec_to_tri_vector indices N) vectors.

(** Reading a matrix at an index pair, and reading it at the pairs of the
    index list in their order. *)
Definition entry (m : list (list Scalar)) (ix : nat * nat) : option Scalar :=
  m !! ix.1 ≫= (.!! ix.2).

Definition read_tril (N : nat) (m : list (list Scalar)) : option (list Scalar) :=
  mapM (entry m) (tril_index_tensor N).

End Scalars.

(** ** [models/sgpmc.py]: the data the model is made of *)

(** An array, or the value of a tensor: its shape and its elements in
    row-major order. *)
Record Tensor (Scalar : Type) := {
  shape : list nat;
  data : list Scalar;
}.
Arguments shape {Scalar} t.
Arguments data {Scalar} t.

(** [priors.Gaussian(mu, var)]. *)
Inductive Prior (Scalar : Type) :=
| Gaussian (mu var : Scalar).
Arguments Gaussian {Scalar} mu var.

(** Modelled from the spec: the [Parameter(initial_value, name)]
    constructor of the parameter framework, with its assignable [prior]
    attribute; a fresh parameter has no prior. *)
Record Param (Scalar : Type) := {
  value : Tensor Scalar;
  name : string;
  prior : option (Prior Scalar);
}.
Arguments value {Scalar} p.
Arguments name {Scalar} p.
Arguments prior {Scalar} p.

(** The likelihood and mean-function objects, by the methods the model
    calls on them. *)
Record Likelihood (Scalar : Type) := {
  variational_expectations :
    Tensor Scalar → Tensor Scalar → Tensor Scalar → Tensor Scalar;
}.
Arguments variational_expectations {Scalar} l Fmu Fvar Y.

Record MeanFunction (Scalar : Type) := {
  __call__ : Tensor Scalar → Tensor Scalar;
}.
Arguments __call__ {Scalar} m X.

(** Modelled from the spec: the attributes the base model class [GPModel]
    provides. *)
Record GPModel (Scalar Kernel : Type) := {
  X : Tensor Scalar;
  Y : Tensor Scalar;
  kern : Kernel;
  likelihood : Likelihood Scalar;
  mean_function : MeanFunction Scalar;
  _parameters : list (Param Scalar);
}.
Arguments X {Scalar Kernel} g.
Arguments Y {Scalar Kernel} g.
Arguments kern {Scalar Kernel} g.
Arguments likelihood {Scalar Kernel} g.
Arguments mean_function {Scalar Kernel} g.
Arguments _parameters {Scalar Kernel} g.

(** Assigning the attribute [_parameters]. *)
Definition set__parameters {Scalar Kernel} (g : GPModel Scalar Kernel)
    (ps : list (Param Scalar)) : GPModel Scalar Kernel :=
  {| X := X g; Y := Y g; kern := kern g; likelihood := likelihood g;
     mean_function := mean_function g; _parameters := ps |}.

(** Assigning the attribute [prior] of a parameter. *)
Definition set_prior {Scalar} (p : Param Scalar) (pr : Prior Scalar)
  : Param Scalar :=
  {| value := value p; name := name p; prior := Some pr |}.

(** An [SGPMC] object: the attributes of the base class and its own. *)
Record SGPMC (Scalar Kernel Feature : Type) := {
  base : GPModel Scalar Kernel;
  num_data : nat;
  num_latent : Z;
  feature : Feature;
  _V : Param Scalar;
}.
Arguments base {Scalar Kernel Feature} s.
Arguments num_data {Scalar Kernel Feature} s.
Arguments num_latent {Scalar Kernel Feature} s.
Arguments feature {Scalar Kernel Feature} s.
Arguments _V {Scalar Kernel Feature} s.

(** The calls a method makes to its collaborators, with their arguments. *)
Inductive call (Scalar Kernel Feature : Type) :=
| Call_conditional (feat : Feature) (kern : Kernel) (Xnew f : Tensor Scalar)
    (full_cov : bool) (q_sqrt : option (Tensor Scalar)) (white : bool)
| Call_mean_function (Xnew : Tensor Scalar)
| Call_variational_expectations (Fmu Fvar Y : Tensor Scalar).
Arguments Call_conditional {Scalar Kernel Feature}.
Arguments Call_mean_function {Scalar Kernel Feature}.
Arguments Call_variational_expectations {Scalar Kernel Feature}.

(** What a method of the model runs in: the object, and the calls made so
    far. *)
Record world (Scalar Kernel Feature : Type) := {
  self : SGPMC Scalar Kernel Feature;
  calls : list (call Scalar Kernel Feature);
}.
Arguments self {Scalar Kernel Feature} w.
Arguments calls {Scalar Kernel Feature} w.

(** [a or b] for [a] an integer or [None]: [b] is evaluated only when [a]
    is falsy. *)
Definition py_or (a : option Z) (b : result Z) : result Z :=
  match a with
  | Some n => if bool_decide (n ≠ 0%Z) then Ok n else b
  | None => b
  end.

Section Model.
Context {Scalar : Type} (szero sone : Scalar) (sadd : Scalar → Scalar → Scalar).
Context (alloc_failure : list Z → option exn).
Context {Kernel Feature Kwargs : Type}.

(** [alloc_failure] is numpy's size limit and the machine's memory: the
    exception [np.zeros] raises for dimensions it has no room for, if
    any. *)

(** The collaborators outside this module: the base class constructor,
    the feature wrapper and the length of a feature set, the posterior
    conditional, and the framework's addition of tensors. *)
Context
  (GPModel___init__ :
     Tensor Scalar → Tensor Scalar → Kernel → Likelihood Scalar →
     option (MeanFunction Scalar) → Kwargs → result (GPModel Scalar Kernel))
  (inducingpoint_wrapper :
     option Feature → option (Tensor Scalar) → result Feature)
  (len : Feature → nat)
  (conditional :
     Feature → Kernel → Tensor Scalar → Tensor Scalar → bool →
     option (Tensor Scalar) → bool → Tensor Scalar * Tensor Scalar)
  (tf_add : Tensor Scalar → Tensor Scalar → Tensor Scalar).

(** [t.shape[i]]. *)
Definition shape_at (t : Tensor Scalar) (i : nat) : result nat :=
  match shape t !! i with
  | Some d => Ok d
  | None => Raise (IndexError "tuple index out of range")
  end.

(** [np.zeros(dims)]: a negative dimension is refused, and so are
    dimensions there is no room for. *)
Definition np_zeros (dims : list Z) : result (Tensor Scalar) :=
  if forallb (λ d, bool_decide (0 ≤ d)%Z) dims then
    match alloc_failure dims with
    | Some e => Raise e
    | None =>
        Ok {| shape := Z.to_nat <$> dims;
              data := replicate (foldr Nat.mul 1%nat (Z.to_nat <$> dims))
                        szero |}
    end
  else
    Raise (ValueError "negative dimensions are not allowed").

(** [tf.reduce_sum(t)], no axis given: the sum of all the elements, a
    tensor of rank 0. *)
Definition tf_reduce_sum (t : Tensor Scalar) : Tensor Scalar :=
  {| shape := []; data := [foldl sadd szero (data t)] |}.

(** [SGPMC.__init__]. The variable scope only prefixes the names the
    framework gives its variables. *)
Definition __init__ (X Y : Tensor Scalar) (kern : Kernel)
    (likelihood : Likelihood Scalar) (feat : option Feature)
    (mean_function : option (MeanFunction Scalar)) (num_latent : option Z)
    (Z_ : option (Tensor Scalar)) (kwargs : Kwargs)
  : result (SGPMC Scalar Kernel Feature) :=
  self ← GPModel___init__ X Y kern likelihood mean_function kwargs;
  num_data ← shape_at X 0;
  num_latent ← py_or num_latent (Z.of_nat <$> shape_at Y 1);
  feature ← inducingpoint_wrapper feat Z_;
  zeros ← np_zeros [Z.of_nat (len feature); num_latent];
  let _V := {| value := zeros; name := "V"; prior := None |} in
  let _V := set_prior _V (Gaussian szero sone) in
  Ok {| base := set__parameters self (_parameters self ++ [_V]);
        num_data := num_data;
        num_latent := num_latent;
        feature := feature;
        _V := _V |}.

(** Methods read the object and call collaborators. *)
Definition M (A : Type) : Type :=
  world Scalar Kernel Feature → A * world Scalar Kernel Feature.

#[local] Instance M_ret : MRet M := λ A a w, (a, w).
#[local] Instance M_bind : MBind M := λ A B k m w,
  let '(a, w') := m w in k a w'.

Definition getattr {A} (attr : SGPMC Scalar Kernel Feature → A) : M A :=
  λ w, (attr (self w), w).

Definition called {A} (c : call Scalar Kernel Feature) (r : A) : M A :=
  λ w, (r, {| self := self w; calls := calls w ++ [c] |}).

Definition call_conditional (feat : Feature) (kern : Kernel)
    (Xnew f : Tensor Scalar) (full_cov : bool)
    (q_sqrt : option (Tensor Scalar)) (white : bool)
  : M (Tensor Scalar * Tensor Scalar) :=
  called (Call_conditional feat kern Xnew f full_cov q_sqrt white)
         (conditional feat kern Xnew f full_cov q_sqrt white).

Definition call_mean_function (mf : MeanFunction Scalar)
    (Xnew : Tensor Scalar) : M (Tensor Scalar) :=
  called (Call_mean_function Xnew) (__call__ mf Xnew).

Definition call_variational_expectations (lik : Likelihood Scalar)
    (Fmu Fvar Y : Tensor Scalar) : M (Tensor Scalar) :=
  called (Call_variational_expectations Fmu Fvar Y)
         (variational_expectations lik Fmu Fvar Y).

(** The property [V]. *)
Definition V : M (Tensor Scalar) :=
  p ← getattr _V; mret (value p).

Definition _build_predict (Xnew : Tensor Scalar) (full_cov : bool)
  : M (Tensor Scalar * Tensor Scalar) :=
  feat ← getattr feature;
  k ← getattr (kern ∘ base);
  v ← V;
  '(mu, var) ← call_conditional feat k Xnew v full_cov None true;
  mf ← getattr (mean_function ∘ base);
  m ← call_mean_function mf Xnew;
  mret (tf_add mu m, var).

Definition _build_likelihood : M (Tensor Scalar) :=
  x ← getattr (X ∘ base);
  '(fmean, fvar) ← _build_predict x false;
  lik ← getattr (likelihood ∘ base);
  y ← getattr (Y ∘ base);
  ve ← call_variational_expectations lik fmean fvar y;
  mret (tf_reduce_sum ve).

(** Element [(i, j)] of a tensor of rank 2. *)
Definition tensor_entry (t : Tensor Scalar) (i j : nat) : option Scalar :=
  match shape t with
  | [n; m] =>
      if bool_decide (i < n)%nat && bool_decide (j < m)%nat
      then data t !! (i * m + j)%nat else None
  | _ => None
  end.

End Model.

(** ** The prose's vocabulary for the predicates *)

(** A scalar in the sense of the list branch: an instance of [float] or
    of [int]; an array there is an instance of [list] or [np.ndarray]. *)
Definition is_scalar (v : pyval) : bool := isinstance v [C_float; C_int].
Definition is_arraylike (v : pyval) : bool := isinstance v [C_list; C_ndarray].

(** A class all of whose instances are scalars. *)
Definition scalar_class (c : pyclass) : bool :=
  bool_decide (C_float ∈ mro c) || bool_decide (C_int ∈ mro c).

(** The types the normaliser sends to the float type, and to the int type. *)
Definition float_32_64 (t : np_type) : Prop :=
  kind_of t = Floating ∧ (bits_of t = 32 ∨ bits_of t = 64)%nat.
Definition int_16_32_64 (t : np_type) : Prop :=
  kind_of t = SignedInt ∧ (bits_of t = 16 ∨ bits_of t = 32 ∨ bits_of t = 64)%nat.

(** The lower-triangle positions of an [N x N] matrix row by row, left to
    right within a row; and the number of them above row [n]. *)
Definition tril_pairs (N : nat) : list (nat * nat) :=
  flat_map (λ i, map (λ j, (i, j)) (seq 0 (S i))) (seq 0 N).

Fixpoint tri_num (n : nat) : nat :=
  match n with
  | O => O
  | S m => (tri_num m + S m)%nat
  end.

(** Reading the lower triangle of a matrix row by row, left to right
    within a row. *)
Definition read_lower_triangle {Scalar} (N : nat) (m : list (list Scalar))
  : option (list Scalar) :=
  mapM (entry m) (tril_pairs N).

(** The batch of one vector. *)
Definition single {Scalar} (v : list Scalar) : Batch Scalar :=
  {| batch_dims := (1%nat, length v); batch_rows := [v] |}.

(** A matrix with [n] rows of [n] entries. *)
Definition square {Scalar} (n : nat) (m : list (list Scalar)) : Prop :=
  length m = n ∧ Forall (λ row, length row = n) m.

(** The matrix one vector is scattered into, the index list written row
    by row. *)
Definition tril_matrix {Scalar} (szero : Scalar)
    (sadd : Scalar → Scalar → Scalar) (N : nat) (v : list Scalar)
  : list (list Scalar) :=
  fold_left (scatter_add sadd) (zip (tril_pairs N) v) (matrix_zeros szero N N).

(** Python's falsy values among [None] and the integers. *)
Definition falsy (a : option Z) : Prop := a = None ∨ a = Some 0%Z.

(** The sum of [f i j] over the rows [i < n] and the columns [j < r],
    taken in row-major order. *)
Definition double_sum {Scalar} (szero : Scalar)
    (sadd : Scalar → Scalar → Scalar) (n r : nat) (f : nat → nat → Scalar)
  : Scalar :=
  foldl (λ acc i, foldl (λ acc j, sadd acc (f i j)) acc (seq 0 r))
        szero (seq 0 n).

(** ** A small model over the integers *)

(** Collaborators for a regression with three data points, two outputs and
    two inducing points, on which the statements about the model are
    evaluated. A feature set is given by its number of points. *)
Module Toy.

Definition map2 (f : Z → Z → Z) (a b : Tensor Z) : Tensor Z :=
  {| shape := shape a; data := zip_with f (data a) (data b) |}.

Definition tf_add : Tensor Z → Tensor Z → Tensor Z := map2 Z.add.

Definition zero_mean : MeanFunction Z :=
  {| __call__ Xnew :=
       let n := length (data Xnew) in
       {| shape := [n; 2%nat]; data := replicate (n * 2) 0%Z |} |}.

Definition squared_error : Likelihood Z :=
  {| variational_expectations Fmu Fvar Y :=
       map2 (λ y f, - ((y - f) * (y - f)))%Z Y Fmu |}.

Definition GPModel___init__ (X Y : Tensor Z) (kern : unit)
    (likelihood : Likelihood Z) (mean_function : option (MeanFunction Z))
    (kwargs : unit) : result (GPModel Z unit) :=
  Ok (Build_GPModel Z unit X Y kern likelihood
        (default zero_mean mean_function) []).

Definition inducingpoint_wrapper (feat : option nat) (Z_ : option (Tensor Z))
  : result nat :=
  match feat, Z_ with
  | Some f, None => Ok f
  | None, Some z => Ok (default 0%nat (shape z !! 0%nat))
  | _, _ => Raise (ValueError "give either feat or Z")
  end.

Definition len (feat : nat) : nat := feat.

(** A machine with room for arrays of a million elements. *)
Definition alloc_failure (dims : list Z) : option exn :=
  if bool_decide (foldr Z.mul 1%Z dims ≤ 1000000)%Z then None
  else Some MemoryError.

(** The mean repeats the inputs over the outputs, the variance is one. *)
Definition conditional (feat : nat) (kern : unit) (Xnew f : Tensor Z)
    (full_cov : bool) (q_sqrt : option (Tensor Z)) (white : bool)
  : Tensor Z * Tensor Z :=
  let n := length (data Xnew) in
  ({| shape := [n; 2%nat]; data := data Xnew ≫= (λ x, [x; x]) |},
   {| shape := [n; 2%nat]; data := replicate (n * 2) 1%Z |}).

Definition inputs : Tensor Z :=
  {| shape := [3; 1]%nat; data := [1; 2; 3]%Z |}.
Definition targets : Tensor Z :=
  {| shape := [3; 2]%nat; data := [1; 1; 2; 3; 5; 3]%Z |}.

Definition V : Param Z :=
  {| value := {| shape := [2; 2]%nat; data := [0; 0; 0; 0]%Z |};
     name := "V";
     prior := Some (Gaussian 0%Z 1%Z) |}.

(** The object [SGPMC(X, Y, kern, likelihood, feat=2)]. *)
Definition model : SGPMC Z unit nat :=
  {| base := {| X := inputs; Y := targets; kern := ();
                likelihood := squared_error;
                mean_function := zero_mean; _parameters := [V] |};
     num_data := 3;
     num_latent := 2;
     feature := 2%nat;
     _V := V |}.

End Toy.

(** Index pairs in lexicographic order: by row, then by column. *)
Definition lex_lt (a b : nat * nat) : Prop :=
  a.1 < b.1 ∨ (a.1 = b.1 ∧ a.2 < b.2).

(** ** The methods over collaborators with effects *)

(** The same two methods, line by line, where a call to a collaborator is
    any computation on the world: it may depend on, and change, the state
    outside the object (the framework's graph, its variables, the state
    of the kernel and likelihood objects), and it may change the object.
    The embedding above is the case where that state is the list of the
    calls made, and a collaborator returns the value of a function and
    adds its call to the list. *)
Module Effectful.
Section Effects.
Context {Scalar Kernel Feature Env : Type}.

Record world := {
  self : SGPMC Scalar Kernel Feature;
  env : Env;
}.

Definition M (A : Type) : Type := world → A * world.

#[local] Instance M_ret : MRet M := λ A a w, (a, w).
#[local] Instance M_bind : MBind M := λ A B k m w,
  let '(a, w') := m w in k a w'.

Context
  (conditional :
     Feature → Kernel → Tensor Scalar → Tensor Scalar → bool →
     option (Tensor Scalar) → bool → M (Tensor Scalar * Tensor Scalar))
  (call_mean_function : MeanFunction Scalar → Tensor Scalar → M (Tensor Scalar))
  (variational_expectations :
     Likelihood Scalar → Tensor Scalar → Tensor Scalar → Tensor Scalar →
     M (Tensor Scalar))
  (tf_add : Tensor Scalar → Tensor Scalar → M (Tensor Scalar))
  (tf_reduce_sum : Tensor Scalar → M (Tensor Scalar)).

Definition getattr {A} (attr : SGPMC Scalar Kernel Feature → A) : M A :=
  λ w, (attr (self w), w).

Definition V : M (Tensor Scalar) :=
  p ← getattr _V; mret (value p).

Definition _build_predict (Xnew : Tensor Scalar) (full_cov : bool)
  : M (Tensor Scalar * Tensor Scalar) :=
  feat ← getattr feature;
  k ← getattr (kern ∘ base);
  v ← V;
  '(mu, var) ← conditional feat k Xnew v full_cov None true;
  mf ← getattr (mean_function ∘ base);
  m ← call_mean_function mf Xnew;
  mean ← tf_add mu m;
  mret (mean, var).

Definition _build_likelihood : M (Tensor Scalar) :=
  x ← getattr (X ∘ base);
  '(fmean, fvar) ← _build_predict x false;
  lik ← getattr (likelihood ∘ base);
  y ← getattr (Y ∘ base);
  ve ← variational_expectations lik fmean fvar y;
  tf_reduce_sum ve.

(** A call that is a function of its arguments and leaves the object
    alone: it returns one value whatever the world, and does not change
    the object (the state outside it may change). *)
Definition pure_call {A} (c : M A) : Prop :=
  ∃ a, ∀ w, (c w).1 = a ∧ self (c w).2 = self w.

(** A computation that reads the object and nothing else, and leaves it
    as it was. *)
Definition reads_only {A} (c : M A) : Prop :=
  ∀ w, self (c w).2 = self w
       ∧ ∀ w', self w' = self w → (c w').1 = (c w).1.

End Effects.
Arguments world : clear implicits.
Arguments M : clear implicits.
End Effectful.

(** The collaborators of the small model, each adding a node to a graph
    whose size is the state outside the object; and a reduction that
    depends on that size. *)
Module ToyEffects.

Definition M := Effectful.M Z unit nat nat.

Definition expectations := @variational_expectations Z.

(** The sum of the elements, counted from [z]. *)
Definition sum_from (z : Z) : Tensor Z → Tensor Z := tf_reduce_sum z Z.add.

Definition node {A} (a : A) : M A :=
  λ w, (a, {| Effectful.self := Effectful.self w;
              Effectful.env := S (Effectful.env w) |}).

Definition conditional (feat : nat) (kern : unit) (Xnew f : Tensor Z)
    (full_cov : bool) (q_sqrt : option (Tensor Z)) (white : bool)
  : M (Tensor Z * Tensor Z) :=
  node (Toy.conditional feat kern Xnew f full_cov q_sqrt white).

Definition call_mean_function (mf : MeanFunction Z) (Xnew : Tensor Z)
  : M (Tensor Z) :=
  node (__call__ mf Xnew).

Definition variational_expectations (lik : Likelihood Z)
    (Fmu Fvar Y : Tensor Z) : M (Tensor Z) :=
  node (expectations lik Fmu Fvar Y).

Definition tf_add (a b : Tensor Z) : M (Tensor Z) := node (Toy.tf_add a b).

Definition tf_reduce_sum (t : Tensor Z) : M (Tensor Z) :=
  node (sum_from 0%Z t).

(** A reduction that adds the size of the graph to the sum. *)
Definition stateful_reduce_sum (t : Tensor Z) : M (Tensor Z) :=
  λ w, (sum_from (Z.of_nat (Effectful.env w)) t,
        {| Effectful.self := Effectful.self w;
           Effectful.env := S (Effectful.env w) |}).

End ToyEffects.

(** * Properties *)

(** ** The predicates *)

Lemma is_list_PyList (v : pyval) :
  is_list v = true ↔ ∃ items, v = PyList items.
Proof.
  split.
  - destruct v as [| | | | | | | items | | t | | | |];
      try (vm_compute; discriminate); [by eexists |].
    destruct t; vm_compute; discriminate.
  - by intros [items ->].
Qed.

Lemma list_items_None (v : pyval) :
  is_list v = false → list_items v = None.
Proof. by destruct v. Qed.

Lemma scalar_not_arraylike (v : pyval) :
  is_scalar v = true → is_arraylike v = false.
Proof.
  destruct v as [| | | | | | | | | t | | | |];
    try (vm_compute; congruence).
  destruct t; vm_compute; congruence.
Qed.

Lemma ndarray_arraylike (v : pyval) :
  is_ndarray v = true → is_arraylike v = true.
Proof.
  destruct v as [| | | | | | | | | t | | | |];
    try (vm_compute; congruence).
  destruct t; vm_compute; congruence.
Qed.

Lemma forallb_Forall_true {A} (f : A → bool) (l : list A) :
  forallb f l = true ↔ Forall (λ x, f x = true) l.
Proof.
  induction l as [|x l IH]; simpl.
  - split; [intros _; constructor | done].
  - rewrite andb_true_iff, IH, Forall_cons. done.
Qed.

Lemma valid_cons (x : pyval) (rest : list pyval) :
  is_valid_param_value (PyList (x :: rest)) =
    if is_scalar x then forallb is_scalar rest
    else if is_arraylike x then forallb is_arraylike rest
    else false.
Proof.
  unfold is_valid_param_value, is_scalar, is_arraylike. cbn [list_items].
  destruct (isinstance x [C_float; C_int]); [reflexivity |].
  destruct (isinstance x [C_list; C_ndarray]); reflexivity.
Qed.

Example valid_number : is_valid_param_value (PyFloat 0.5) = true.
Proof. reflexivity. Qed.

Example valid_tensor : is_valid_param_value (TfVariable "V") = true.
Proof. reflexivity. Qed.

Example invalid_string : is_valid_param_value (PyStr "1.0") = false.
Proof. reflexivity. Qed.

Example valid_list_of_bool_and_int :
  is_valid_param_value (PyList [PyInt 1; PyBool true; NpScalar np_float64 0])
  = true.
Proof. reflexivity. Qed.

Example invalid_list_of_float32 :
  is_valid_param_value (PyList [NpScalar np_float32 0]) = false.
Proof. reflexivity. Qed.

(** C3. On a value that is not a list, [is_valid_param_value] is true
    exactly when the value is not [None] and is a number, an array or a
    tensor; the null test, which the code writes on the number branch
    only, decides nothing more, and [None] itself is rejected. *)
Theorem is_valid_param_value_not_list :
  (∀ v : pyval, is_list v = false →
     is_valid_param_value v =
       negb (is_None v) && (is_number v || is_ndarray v || is_tensor v))
  ∧ is_valid_param_value PyNone = false.
Proof.
  split; [| reflexivity].
  intros v Hv. unfold is_valid_param_value.
  rewrite (list_items_None v Hv).
  destruct v as [| | | | | | | | | t | | | |];
    try reflexivity; try (vm_compute in Hv; discriminate).
Qed.

Lemma is_valid_param_value_not_list_witness :
  is_list (NdArray np_float64 [2; 3]%nat) = false
  ∧ is_valid_param_value (NdArray np_float64 [2; 3]%nat) = true.
Proof.
  split; [reflexivity |].
  rewrite (proj1 is_valid_param_value_not_list
             (NdArray np_float64 [2; 3]%nat) eq_refl).
  reflexivity.
Defined.

(** C4. On a list, [is_valid_param_value] rejects the empty list; a
    non-empty list is accepted exactly when its first item is a scalar
    and so are the others, or its first item is a list or an array and so
    are the others; a first item of any other type is rejected. So a
    non-empty list whose items all have one scalar type is accepted, and
    a list holding both a scalar and an array is rejected. *)
Theorem is_valid_param_value_list :
  is_valid_param_value (PyList []) = false
  ∧ (∀ x rest,
       is_valid_param_value (PyList (x :: rest)) = true ↔
         (is_scalar x = true ∧ Forall (λ v, is_scalar v = true) rest)
         ∨ (is_arraylike x = true ∧ Forall (λ v, is_arraylike v = true) rest))
  ∧ (∀ x rest,
       is_scalar x = false → is_arraylike x = false →
       is_valid_param_value (PyList (x :: rest)) = false)
  ∧ (∀ c items,
       items ≠ [] → scalar_class c = true →
       Forall (λ v, type_of v = c) items →
       is_valid_param_value (PyList items) = true)
  ∧ (∀ items s a,
       s ∈ items → a ∈ items → is_scalar s = true → is_ndarray a = true →
       is_valid_param_value (PyList items) = false).
Proof.
  split; [reflexivity |]. split; [| split; [| split]].
  - intros x rest. rewrite valid_cons.
    destruct (is_scalar x) eqn:Hs.
    + rewrite forallb_Forall_true. split; [intros ?; by left |].
      intros [[_ ?] | [Ha _]]; [done |].
      rewrite (scalar_not_arraylike x Hs) in Ha. discriminate.
    + destruct (is_arraylike x) eqn:Ha.
      * rewrite forallb_Forall_true. split; [intros ?; by right |].
        intros [[? _] | [_ ?]]; [discriminate | done].
      * split; [discriminate |]. intros [[? _] | [? _]]; discriminate.
  - intros x rest Hs Ha. rewrite valid_cons, Hs, Ha. reflexivity.
  - intros c items Hne Hc Hall.
    assert (Hsc : ∀ v, type_of v = c → is_scalar v = true).
    { intros v <-. unfold is_scalar, isinstance. simpl.
      unfold scalar_class in Hc. rewrite orb_false_r. exact Hc. }
    destruct items as [|x rest]; [done |].
    apply Forall_cons in Hall as [Hx Hrest].
    rewrite valid_cons, (Hsc x Hx). apply forallb_Forall_true.
    eapply Forall_impl; [exact Hrest |]. exact Hsc.
  - intros items s a Hs Ha Hss Haa.
    destruct items as [|x rest]; [by apply elem_of_nil in Hs |].
    rewrite valid_cons.
    pose proof (scalar_not_arraylike s Hss) as Hsa.
    pose proof (ndarray_arraylike a Haa) as Haa'.
    assert (Has : is_scalar a = false).
    { destruct (is_scalar a) eqn:E; [| done].
      rewrite (scalar_not_arraylike a E) in Haa'. discriminate. }
    destruct (is_scalar x) eqn:Hx.
    + apply not_true_is_false. rewrite forallb_Forall_true, Forall_forall.
      intros Hall. apply elem_of_cons in Ha as [-> | Ha]; [congruence |].
      specialize (Hall a Ha). congruence.
    + destruct (is_arraylike x) eqn:Hxa; [| done].
      apply not_true_is_false. rewrite forallb_Forall_true, Forall_forall.
      intros Hall. apply elem_of_cons in Hs as [-> | Hs]; [congruence |].
      specialize (Hall s Hs). congruence.
Qed.

Lemma is_valid_param_value_list_witness :
  is_valid_param_value (PyList [PyFloat 1.5; PyFloat 2; PyFloat 0]) = true
  ∧ is_valid_param_value (PyList [PyInt 1; NdArray np_float64 [3]%nat]) = false
  ∧ is_valid_param_value (PyList [PyStr "a"; PyInt 1]) = false.
Proof.
  destruct is_valid_param_value_list as (_ & _ & Hother & Huniform & Hmixed).
  split; [| split].
  - apply (Huniform C_float); [done | reflexivity |].
    repeat constructor.
  - apply (Hmixed _ (PyInt 1) (NdArray np_float64 [3]%nat));
      [constructor | do 2 constructor | reflexivity | reflexivity].
  - apply Hother; reflexivity.
Defined.

(** ** The numeric-type normaliser *)

Lemma float_32_64_iff (t : np_type) :
  float_32_64 t ↔ t ∈ [np_float32; np_float64].
Proof.
  unfold float_32_64. split.
  - intros [Hk Hb]. destruct t; try discriminate Hk;
      [destruct Hb; discriminate | |]; repeat constructor.
  - intros Ht. repeat (apply elem_of_cons in Ht as [-> | Ht]);
      [split; [done | by left] | split; [done | by right] |].
    by apply elem_of_nil in Ht.
Qed.

Lemma int_16_32_64_iff (t : np_type) :
  int_16_32_64 t ↔ t ∈ [np_int16; np_int32; np_int64].
Proof.
  unfold int_16_32_64. split.
  - intros [Hk Hb]. destruct t; try discriminate Hk;
      [destruct Hb as [|[|]]; discriminate | | |]; repeat constructor.
  - intros Ht. repeat (apply elem_of_cons in Ht as [-> | Ht]);
      [split; [done | by left] | split; [done | right; by left]
      | split; [done | right; by right] |].
    by apply elem_of_nil in Ht.
Qed.

(** Membership in an explicit list of types, settled by cases. *)
Ltac by_members :=
  repeat match goal with
         | H : _ ∈ _ |- _ => rewrite ?elem_of_cons, elem_of_nil in H
         end;
  intuition (subst; try discriminate; try congruence).

Lemma string_app_assoc (a b c : string) : (a ++ b) ++ c = a ++ (b ++ c).
Proof.
  induction a as [|ch a IH]; [done |].
  change (String ch ((a ++ b) ++ c) = String ch (a ++ (b ++ c))).
  by rewrite IH.
Qed.

(** C7, where the code fails it. On a framework handle the code evaluates
    [num_type.as_numpy_dtype.type]; [as_numpy_dtype] is a class and has
    no attribute [type], so every handle makes [normalize_num_type] raise
    an [AttributeError]: the float handles do not give the configured
    float type, the integer handles do not give the configured int type,
    and an unsupported handle does not give the [ValueError] that names
    it. *)
Theorem normalize_num_type_handle (s : Settings) (d : tf_dtype) :
  (∃ msg, normalize_num_type as_numpy_dtype_type s (TfDType d)
          = Raise (AttributeError msg))
  ∧ normalize_num_type as_numpy_dtype_type s (TfDType tf_float32)
    ≠ Ok (float_type s)
  ∧ normalize_num_type as_numpy_dtype_type s (TfDType tf_int32)
    ≠ Ok (int_type s)
  ∧ normalize_num_type as_numpy_dtype_type s (TfDType tf_complex64)
    ≠ Raise (ValueError (unknown_dtype_msg np_complex64)).
Proof.
  split; [by eexists |]. split; [| split]; discriminate.
Qed.

(** On a numpy type given as it is, [normalize_num_type] returns the
    configured float type for the 32- and 64-bit floating types, the
    configured int type for the 16-, 32- and 64-bit signed integer types,
    and raises for every other type and for no type of those two groups;
    complex and boolean types are among the others. The error is a
    [ValueError] whose message holds the text of the type. *)
Theorem normalize_num_type_native (numpy_type_of : tf_dtype → result np_type)
    (s : Settings) (t : np_type) :
  (float_32_64 t →
   normalize_num_type numpy_type_of s (Native t) = Ok (float_type s))
  ∧ (int_16_32_64 t →
     normalize_num_type numpy_type_of s (Native t) = Ok (int_type s))
  ∧ (raises (normalize_num_type numpy_type_of s (Native t)) ↔
       ¬ float_32_64 t ∧ ¬ int_16_32_64 t)
  ∧ (kind_of t = Complex ∨ kind_of t = Boolean →
       raises (normalize_num_type numpy_type_of s (Native t)))
  ∧ (raises (normalize_num_type numpy_type_of s (Native t)) →
       normalize_num_type numpy_type_of s (Native t)
       = Raise (ValueError (unknown_dtype_msg t))
       ∧ ∃ before after, unknown_dtype_msg t = before ++ np_str t ++ after).
Proof.
  unfold normalize_num_type, raises, unwrap.
  unfold mbind, result_mbind, result_bind.
  rewrite float_32_64_iff, int_16_32_64_iff.
  assert (Hmsg : ∃ before after,
             unknown_dtype_msg t = before ++ np_str t ++ after).
  { exists ("Unknown dtype " ++ dquote), (dquote ++ " passed to normalizer.").
    unfold unknown_dtype_msg. by rewrite string_app_assoc. }
  repeat case_bool_decide.
  - split; [done |]. split; [| split; [| split]].
    + intros Hi. exfalso. by_members.
    + split; [intros [e He]; discriminate | intros [Hn _]; done].
    + intros Hk. exfalso. by_members.
    + intros [e He]; discriminate.
  - split; [done |]. split; [done |]. split; [| split].
    + split; [intros [e He]; discriminate | intros [_ Hn]; done].
    + intros Hk. exfalso. by_members.
    + intros [e He]; discriminate.
  - split; [done |]. split; [done |]. split; [| split].
    + split; [done | intros _; by eexists].
    + intros _; by eexists.
    + intros _. split; [done | exact Hmsg].
Qed.

Lemma normalize_num_type_native_witness :
  let s := {| float_type := np_float64; int_type := np_int32 |} in
  normalize_num_type as_numpy_dtype_type s (Native np_float32) = Ok np_float64
  ∧ normalize_num_type as_numpy_dtype_type s (Native np_int64) = Ok np_int32
  ∧ raises (normalize_num_type as_numpy_dtype_type s (Native np_complex64))
  ∧ raises (normalize_num_type as_numpy_dtype_type s (Native np_bool_)).
Proof.
  intros s. split; [| split; [| split]].
  - apply (normalize_num_type_native as_numpy_dtype_type s np_float32).
    split; [reflexivity | left; reflexivity].
  - apply (normalize_num_type_native as_numpy_dtype_type s np_int64).
    split; [reflexivity | right; right; reflexivity].
  - apply (normalize_num_type_native as_numpy_dtype_type s np_complex64).
    left; reflexivity.
  - apply (normalize_num_type_native as_numpy_dtype_type s np_bool_).
    right; reflexivity.
Defined.

(** ** The index tensor of [vec_to_tri] *)

Close Scope string_scope.

Lemma tri_num_closed (n : nat) : tri_num n = n * (n + 1) / 2.
Proof.
  assert (H : 2 * tri_num n = n * (n + 1)) by (induction n; simpl; lia).
  apply (Nat.div_unique_exact _ 2); lia.
Qed.

Lemma tri_num_lt (r n : nat) : r < n → tri_num r + r < tri_num n.
Proof. induction 1; simpl; lia. Qed.

Lemma zip_seq_map {B} (f : nat → B) (s n : nat) :
  zip (seq s n) (map f (seq s n)) = map (λ i, (i, f i)) (seq s n).
Proof. revert s. induction n as [|n IH]; intros s; simpl; [done | by rewrite IH]. Qed.

Lemma enumerate_map_seq {B} (f : nat → B) (n : nat) :
  Np.enumerate (map f (seq 0 n)) = map (λ i, (i, f i)) (seq 0 n).
Proof.
  unfold Np.enumerate. rewrite length_map, length_seq. apply zip_seq_map.
Qed.

Lemma flat_map_map_in {A B C} (g : A → B) (f : B → list C) (h : A → list C)
    (l : list A) :
  (∀ a, a ∈ l → f (g a) = h a) → flat_map f (map g l) = flat_map h l.
Proof.
  induction l as [|a l IH]; intros H; simpl; [done |].
  rewrite H by constructor. rewrite IH; [done |].
  intros b Hb. apply H. by constructor.
Qed.

Lemma flat_map_singletons {A C} (h : A → C) (l : list A) :
  flat_map (λ a, [h a]) l = map h l.
Proof. induction l as [|a l IH]; simpl; [done | by rewrite IH]. Qed.

Lemma flat_map_empties {A C} (l : list A) :
  flat_map (λ _ : A, @nil C) l = [].
Proof. by induction l. Qed.

Example tril_index_tensor_3 :
  tril_index_tensor 3 = [(0, 0); (1, 0); (1, 1); (2, 0); (2, 1); (2, 2)].
Proof. reflexivity. Qed.

Example vec_to_tri_short_vector :
  vec_to_tri 0%Z Z.add (single [1; 2; 3; 4; 5]%Z) 3
  = Raise (ScatterShapeError [6; 2] [5] (3, 3)).
Proof. reflexivity. Qed.

Example vec_to_tri_size_0 :
  vec_to_tri 0%Z Z.add (single []) 0
  = Raise (ScatterShapeError [0] [0] (0, 0)).
Proof. reflexivity. Qed.

(** The set entries of row [i] of the mask, with their positions. *)
Lemma row_hits (i N : nat) :
  i < N →
  flat_map (λ '(j, b), if b : bool then [(i, j)] else [])
    (Np.enumerate (map (λ j, bool_decide (j ≤ i)) (seq 0 N)))
  = map (λ j, (i, j)) (seq 0 (S i)).
Proof.
  intros Hi. rewrite enumerate_map_seq.
  replace N with (S i + (N - S i)) by lia.
  rewrite seq_app, map_app, flat_map_app.
  rewrite (flat_map_map_in _ _ (λ j, [(i, j)])).
  2:{ intros j Hj. apply elem_of_seq in Hj.
      rewrite bool_decide_eq_true_2 by lia. done. }
  rewrite (flat_map_map_in _ _ (λ _, [])).
  2:{ intros j Hj. apply elem_of_seq in Hj.
      rewrite bool_decide_eq_false_2 by lia. done. }
  by rewrite flat_map_singletons, flat_map_empties, app_nil_r.
Qed.

(** [np.tril_indices], zipped, lists the lower triangle row by row. *)
Lemma tril_index_tensor_pairs (N : nat) :
  tril_index_tensor N = tril_pairs N.
Proof.
  unfold tril_index_tensor, Np.tril_indices, Np.nonzero, Np.tri.
  rewrite zip_fst_snd, enumerate_map_seq. unfold tril_pairs.
  apply flat_map_map_in.
  intros i Hi. apply elem_of_seq in Hi. apply row_hits. lia.
Qed.

Lemma tril_pairs_S (N : nat) :
  tril_pairs (S N) = tril_pairs N ++ map (λ j, (N, j)) (seq 0 (S N)).
Proof.
  assert (E : ∀ f : nat → list (nat * nat),
             flat_map f (seq 0 (S N)) = flat_map f (seq 0 N) ++ f N).
  { intros f. rewrite seq_S, flat_map_app. simpl. by rewrite app_nil_r. }
  apply E.
Qed.

Lemma length_tril_pairs (N : nat) : length (tril_pairs N) = tri_num N.
Proof.
  induction N as [|N IH]; [done |].
  rewrite tril_pairs_S, length_app, length_map, length_seq, IH. done.
Qed.

(** Position [k] of the index list holds the pair [(r, c)] exactly when
    [c <= r < N] and [k] counts the pairs before it. *)
Lemma lookup_tril_pairs (N k r c : nat) :
  tril_pairs N !! k = Some (r, c) ↔ c ≤ r ∧ r < N ∧ k = tri_num r + c.
Proof.
  induction N as [|N IH].
  - simpl. split; [done | lia].
  - rewrite tril_pairs_S.
    destruct (decide (k < tri_num N)) as [Hk | Hk].
    + rewrite lookup_app_l by (by rewrite length_tril_pairs).
      rewrite IH. split; [lia |].
      intros (Hc & Hr & ->). split; [done |]. split; [| done].
      destruct (decide (r = N)) as [-> | ?]; lia.
    + rewrite lookup_app_r by (rewrite length_tril_pairs; lia).
      rewrite length_tril_pairs, list_lookup_fmap.
      destruct (seq 0 (S N) !! (k - tri_num N)) as [j|] eqn:Hj; simpl.
      * apply lookup_seq in Hj as [-> Hlt]. split.
        -- intros [= <- <-]. lia.
        -- intros (Hc & Hr & ->).
           destruct (decide (r = N)) as [-> | Hne]; [f_equal; f_equal; lia |].
           pose proof (tri_num_lt r N). lia.
      * split; [done |]. intros (Hc & Hr & ->).
        apply lookup_ge_None in Hj. rewrite length_seq in Hj.
        destruct (decide (r = N)) as [-> | Hne]; [lia |].
        pose proof (tri_num_lt r N). lia.
Qed.

Lemma elem_of_tril_pairs (N r c : nat) :
  (r, c) ∈ tril_pairs N ↔ c ≤ r ∧ r < N.
Proof.
  rewrite list_elem_of_lookup. split.
  - intros [k Hk]. apply lookup_tril_pairs in Hk. lia.
  - intros [Hc Hr]. exists (tri_num r + c). by apply lookup_tril_pairs.
Qed.

Lemma NoDup_tril_pairs (N : nat) : NoDup (tril_pairs N).
Proof.
  apply NoDup_alt. intros i j [r c] Hi Hj.
  apply lookup_tril_pairs in Hi, Hj. lia.
Qed.

Lemma result_map_total {A B} (f : A → result B) (g : A → B) (xs : list A) :
  Forall (λ x, f x = Ok (g x)) xs → result_map f xs = Ok (map g xs).
Proof.
  induction 1 as [|x xs Hx _ IH]; simpl; [done |].
  by rewrite Hx, IH.
Qed.

(** ** Scattering into a matrix of zeros *)

Section Scatter.
Context {Scalar : Type} (szero : Scalar) (sadd : Scalar → Scalar → Scalar).
Implicit Types (m : list (list Scalar)) (v : list Scalar).
Implicit Types (idx : list (nat * nat)) (ix : nat * nat).

Lemma entry_scatter_add_eq m ix u :
  entry (scatter_add sadd m (ix, u)) ix = (λ x, sadd x u) <$> entry m ix.
Proof.
  destruct ix as [r c]. unfold entry, scatter_add. simpl.
  rewrite list_lookup_alter_eq.
  destruct (m !! r) as [row|]; simpl; [apply list_lookup_alter_eq | done].
Qed.

Lemma entry_scatter_add_ne m ix ix' u :
  ix ≠ ix' → entry (scatter_add sadd m (ix, u)) ix' = entry m ix'.
Proof.
  destruct ix as [r c], ix' as [r' c']. intros Hne.
  unfold entry, scatter_add. simpl.
  destruct (decide (r = r')) as [-> | Hr].
  - rewrite list_lookup_alter_eq.
    destruct (m !! r') as [row|]; simpl; [| done].
    apply list_lookup_alter_ne. congruence.
  - by rewrite list_lookup_alter_ne.
Qed.

Lemma square_scatter_add n m iu :
  square n m → square n (scatter_add sadd m iu).
Proof.
  destruct iu as [[r c] u]. intros [Hlen Hrows]. unfold scatter_add. split.
  - by rewrite length_alter.
  - apply Forall_lookup. intros i row Hi.
    destruct (decide (r = i)) as [-> | Hne].
    + rewrite list_lookup_alter_eq in Hi.
      destruct (m !! i) as [row'|] eqn:E; simplify_eq/=.
      rewrite length_alter. by eapply (Forall_lookup_1 _ _ _ _ Hrows).
    + rewrite list_lookup_alter_ne in Hi by done.
      by eapply (Forall_lookup_1 _ _ _ _ Hrows).
Qed.

Lemma square_scatter n (ius : list (nat * nat * Scalar)) m :
  square n m → square n (fold_left (scatter_add sadd) ius m).
Proof.
  revert m. induction ius as [|iu ius IH]; intros m Hm; simpl; [done |].
  by apply IH, square_scatter_add.
Qed.

Lemma square_zeros n : square n (matrix_zeros szero n n).
Proof.
  unfold matrix_zeros. split; [by rewrite length_replicate |].
  apply Forall_replicate. by rewrite length_replicate.
Qed.

Lemma entry_zeros n r c :
  r < n → c < n → entry (matrix_zeros szero n n) (r, c) = Some szero.
Proof.
  intros Hr Hc. unfold entry, matrix_zeros. simpl.
  rewrite lookup_replicate_2 by done. simpl. by apply lookup_replicate_2.
Qed.

(** A position no index names keeps its entry. *)
Lemma entry_scatter_notin idx v m ix :
  ix ∉ idx →
  entry (fold_left (scatter_add sadd) (zip idx v) m) ix = entry m ix.
Proof.
  revert v m. induction idx as [|ix0 idx IH]; intros v m Hnot; [done |].
  destruct v as [|u v]; [done |]. simpl.
  apply not_elem_of_cons in Hnot as [Hne Hnot].
  rewrite IH by done. apply entry_scatter_add_ne. congruence.
Qed.

(** A position named once, by the index at [k], receives update [k]. *)
Lemma entry_scatter_in idx v m k ix u :
  NoDup idx → idx !! k = Some ix → v !! k = Some u →
  entry (fold_left (scatter_add sadd) (zip idx v) m) ix
  = (λ x, sadd x u) <$> entry m ix.
Proof.
  revert v m k. induction idx as [|ix0 idx IH]; intros v m k Hnd Hk Hv;
    [done |].
  destruct v as [|u0 v]; [done |]. simpl.
  apply NoDup_cons in Hnd as [Hnot Hnd].
  destruct k as [|k]; simplify_eq/=.
  - rewrite entry_scatter_notin by done. apply entry_scatter_add_eq.
  - rewrite (IH v _ k) by done. f_equal.
    apply entry_scatter_add_ne. intros ->.
    apply Hnot. by eapply list_elem_of_lookup_2.
Qed.

Lemma index_shape_tril N :
  0 < N → index_shape (tf_constant (tril_pairs N)) = [tri_num N; 2].
Proof.
  intros HN. pose proof (length_tril_pairs N) as Hlen.
  destruct (tril_pairs N) as [|ix l] eqn:E; simpl in *.
  - destruct N; simpl in Hlen; lia.
  - by rewrite Hlen.
Qed.

Lemma vec_to_tri_vector_ok N v :
  0 < N → length v = tri_num N →
  vec_to_tri_vector szero sadd (tf_constant (tril_index_tensor N)) N v
  = Ok (tril_matrix szero sadd N v).
Proof.
  intros HN Hlen. rewrite tril_index_tensor_pairs.
  unfold vec_to_tri_vector, scatter_nd. rewrite (index_shape_tril N HN).
  rewrite bool_decide_eq_true_2 by done.
  simpl negb. cbv iota.
  assert (Hin : forallb (in_shape (N, N)) (tril_pairs N) = true).
  { apply forallb_Forall_true, Forall_forall. intros [r c] Hix.
    apply elem_of_tril_pairs in Hix. unfold in_shape. simpl.
    rewrite !bool_decide_eq_true_2 by lia. done. }
  simpl index_pairs. rewrite Hin. done.
Qed.

Lemma vec_to_tri_ok N (vectors : Batch Scalar) :
  0 < N → rectangular vectors → (batch_dims vectors).2 = tri_num N →
  vec_to_tri szero sadd vectors N
  = Ok (map (tril_matrix szero sadd N) (batch_rows vectors)).
Proof.
  intros HN [_ Hall] Hwidth. unfold vec_to_tri, tf_map_fn.
  unfold mbind, result_mbind, result_bind.
  rewrite vec_to_tri_vector_ok by (by rewrite ?length_replicate).
  apply result_map_total.
  eapply Forall_impl; [exact Hall |]. intros v Hv. simpl in Hv.
  apply vec_to_tri_vector_ok; [done | congruence].
Qed.

Lemma vec_to_tri_single N v :
  0 < N → length v = tri_num N →
  vec_to_tri szero sadd (single v) N = Ok [tril_matrix szero sadd N v].
Proof.
  intros HN Hlen. apply (vec_to_tri_ok N (single v)); [done | | done].
  split; [done | by constructor].
Qed.

Lemma square_tril_matrix N v : square N (tril_matrix szero sadd N v).
Proof. apply square_scatter, square_zeros. Qed.

Hypothesis sadd_zero_l : ∀ x, sadd szero x = x.

Lemma entry_tril_matrix_lower N v r c :
  length v = tri_num N → c ≤ r → r < N →
  entry (tril_matrix szero sadd N v) (r, c) = v !! (tri_num r + c).
Proof using sadd_zero_l.
  intros Hlen Hc Hr. pose proof (tri_num_lt r N Hr) as Hlt.
  destruct (lookup_lt_is_Some_2 v (tri_num r + c)) as [u Hu]; [lia |].
  rewrite Hu. unfold tril_matrix.
  rewrite (entry_scatter_in _ _ _ (tri_num r + c) _ u);
    [| apply NoDup_tril_pairs | by apply lookup_tril_pairs | done].
  rewrite entry_zeros by lia. simpl. by rewrite sadd_zero_l.
Qed.

Lemma entry_tril_matrix_upper N v r c :
  r < c → c < N → entry (tril_matrix szero sadd N v) (r, c) = Some szero.
Proof.
  intros Hc Hr. unfold tril_matrix. rewrite entry_scatter_notin.
  - apply entry_zeros; lia.
  - rewrite elem_of_tril_pairs. lia.
Qed.

(** Reading the lower triangle back gives the vector. *)
Lemma read_tril_matrix N v :
  length v = tri_num N → read_tril N (tril_matrix szero sadd N v) = Some v.
Proof using sadd_zero_l.
  intros Hlen. unfold read_tril. rewrite tril_index_tensor_pairs.
  apply mapM_Some, Forall2_same_length_lookup.
  split; [by rewrite length_tril_pairs |].
  intros k [r c] u Hk Hu. apply lookup_tril_pairs in Hk as (Hc & Hr & ->).
  by rewrite entry_tril_matrix_lower.
Qed.

Lemma read_tril_batch N (vectors : list (list Scalar)) :
  Forall (λ v, length v = tri_num N) vectors →
  mapM (read_tril N) (map (tril_matrix szero sadd N) vectors) = Some vectors.
Proof using sadd_zero_l.
  intros Hall. apply mapM_Some, Forall2_fmap_l, Forall_Forall2_diag.
  eapply Forall_impl; [exact Hall |]. intros v Hv.
  by apply read_tril_matrix.
Qed.

Lemma read_lower_triangle_matrix N v :
  length v = tri_num N →
  read_lower_triangle N (tril_matrix szero sadd N v) = Some v.
Proof using sadd_zero_l.
  intros Hlen. pose proof (read_tril_matrix N v Hlen) as H.
  unfold read_tril in H. by rewrite tril_index_tensor_pairs in H.
Qed.

Lemma read_lower_triangle_batch N (vectors : list (list Scalar)) :
  Forall (λ v, length v = tri_num N) vectors →
  mapM (read_lower_triangle N) (map (tril_matrix szero sadd N) vectors)
  = Some vectors.
Proof using sadd_zero_l.
  intros Hall. apply mapM_Some, Forall2_fmap_l, Forall_Forall2_diag.
  eapply Forall_impl; [exact Hall |]. intros v Hv.
  by apply read_lower_triangle_matrix.
Qed.

End Scatter.

(** C5, as the code has it. For [N >= 1] and a batch of [D] vectors of
    length [N (N + 1) / 2], [vec_to_tri] returns [D] matrices of size
    [N x N], in the order of the batch; the matrix of a vector depends on
    that vector alone: its entry [(r, c)] with [c <= r] is element
    [r (r + 1) / 2 + c] of the vector, which is the row-by-row,
    left-to-right order of the lower triangle, and every entry above the
    diagonal is zero. For [N = 3] the vector [1, 2, 3, 4, 5, 6] gives
    [[1, 0, 0], [2, 3, 0], [4, 5, 6]]. Adding to zero is taken to return
    the number added. *)
Theorem vec_to_tri_lower_triangle :
  (∀ (Scalar : Type) (szero : Scalar) (sadd : Scalar → Scalar → Scalar),
     (∀ x, sadd szero x = x) →
     ∀ (vectors : Batch Scalar) (N : nat),
       0 < N →
       rectangular vectors →
       (batch_dims vectors).2 = N * (N + 1) / 2 →
       ∃ out,
         vec_to_tri szero sadd vectors N = Ok out
         ∧ length out = (batch_dims vectors).1
         ∧ ∀ d vector, batch_rows vectors !! d = Some vector →
             ∃ m, out !! d = Some m
                  ∧ vec_to_tri szero sadd (single vector) N = Ok [m]
                  ∧ square N m
                  ∧ ∀ r c, r < N → c < N →
                      entry m (r, c) =
                        if bool_decide (c ≤ r)
                        then vector !! (r * (r + 1) / 2 + c)
                        else Some szero)
  ∧ vec_to_tri 0%Z Z.add (single [1; 2; 3; 4; 5; 6]%Z) 3
    = Ok [[[1; 0; 0]; [2; 3; 0]; [4; 5; 6]]%Z].
Proof.
  split; [| reflexivity].
  intros Scalar szero sadd Hzero vectors N HN Hrect Hwidth.
  rewrite <- tri_num_closed in Hwidth.
  exists (map (tril_matrix szero sadd N) (batch_rows vectors)).
  split; [by apply vec_to_tri_ok |].
  split; [rewrite length_map; apply Hrect |].
  intros d vector Hd. exists (tril_matrix szero sadd N vector).
  assert (Hlen : length vector = tri_num N).
  { destruct Hrect as [_ Hall].
    pose proof (Forall_lookup_1 _ _ _ _ Hall Hd) as H. simpl in H.
    congruence. }
  split; [by rewrite list_lookup_fmap, Hd |].
  split; [by apply vec_to_tri_single |].
  split; [apply square_tril_matrix |].
  intros r c Hr Hc. case_bool_decide.
  - rewrite <- tri_num_closed. by apply entry_tril_matrix_lower.
  - apply entry_tril_matrix_upper; lia.
Qed.

Lemma vec_to_tri_lower_triangle_witness :
  let vectors : Batch Z :=
    {| batch_dims := (2, 3); batch_rows := [[1; 2; 3]%Z; [4; 5; 6]%Z] |} in
  ∃ out,
    vec_to_tri 0%Z Z.add vectors 2 = Ok out
    ∧ length out = 2
    ∧ ∀ d vector, batch_rows vectors !! d = Some vector →
        ∃ m, out !! d = Some m
             ∧ vec_to_tri 0%Z Z.add (single vector) 2 = Ok [m]
             ∧ square 2 m
             ∧ ∀ r c, r < 2 → c < 2 →
                 entry m (r, c) =
                   if bool_decide (c ≤ r)
                   then vector !! (r * (r + 1) / 2 + c)
                   else Some 0%Z.
Proof.
  intros vectors.
  apply (proj1 vec_to_tri_lower_triangle Z 0%Z Z.add Z.add_0_l vectors 2).
  - lia.
  - split; [reflexivity | repeat constructor].
  - reflexivity.
Defined.

(** C5 as it was stated fails at [N = 0]: a batch of one vector of
    [0 = N (N + 1) / 2] elements gets no matrix. The index list is empty
    there, the index tensor has shape [(0,)], and the scatter primitive
    rejects it. *)
Lemma vec_to_tri_lower_triangle_fails_at_0 :
  vec_to_tri 0%Z Z.add {| batch_dims := (1, 0); batch_rows := [[]] |} 0
  = Raise (ScatterShapeError [0] [0] (0, 0))
  ∧ ¬ ∃ out,
        vec_to_tri 0%Z Z.add {| batch_dims := (1, 0); batch_rows := [[]] |} 0
        = Ok out.
Proof. split; [reflexivity |]. intros [out Hout]. discriminate Hout. Qed.

(** C6, as the code has it. For [N >= 1] and a vector of length
    [N (N + 1) / 2], reading the lower triangle of the matrix
    [vec_to_tri] builds, row by row and left to right within a row, gives
    the vector back; hence two batches of such vectors with the same
    result are the same batch. Adding to zero is taken to return the
    number added. *)
Theorem vec_to_tri_round_trip :
  ∀ (Scalar : Type) (szero : Scalar) (sadd : Scalar → Scalar → Scalar),
    (∀ x, sadd szero x = x) →
    ∀ N : nat,
      0 < N →
      (∀ vector, length vector = N * (N + 1) / 2 →
         ∃ m, vec_to_tri szero sadd (single vector) N = Ok [m]
              ∧ read_lower_triangle N m = Some vector)
      ∧ (∀ vectors vectors' : Batch Scalar,
           rectangular vectors → rectangular vectors' →
           (batch_dims vectors).2 = N * (N + 1) / 2 →
           (batch_dims vectors').2 = N * (N + 1) / 2 →
           vec_to_tri szero sadd vectors N = vec_to_tri szero sadd vectors' N →
           batch_rows vectors = batch_rows vectors').
Proof.
  intros Scalar szero sadd Hzero N HN. rewrite <- tri_num_closed. split.
  - intros vector Hlen. exists (tril_matrix szero sadd N vector). split.
    + by apply vec_to_tri_single.
    + by apply read_lower_triangle_matrix.
  - intros vectors vectors' Hrect Hrect' Hw Hw' Heq.
    rewrite !vec_to_tri_ok in Heq by done. injection Heq as Heq.
    assert (Hall : ∀ b : Batch Scalar,
               rectangular b → (batch_dims b).2 = tri_num N →
               Forall (λ v, length v = tri_num N) (batch_rows b)).
    { intros b [_ Hb] Hwb. eapply Forall_impl; [exact Hb |].
      intros v Hv. simpl in Hv. congruence. }
    pose proof (read_lower_triangle_batch szero sadd Hzero N _
                  (Hall vectors Hrect Hw)) as H1.
    pose proof (read_lower_triangle_batch szero sadd Hzero N _
                  (Hall vectors' Hrect' Hw')) as H2.
    rewrite Heq in H1. congruence.
Qed.

Lemma vec_to_tri_round_trip_witness :
  ∃ m, vec_to_tri 0%Z Z.add (single [1; 2; 3; 4; 5; 6]%Z) 3 = Ok [m]
       ∧ read_lower_triangle 3 m = Some [1; 2; 3; 4; 5; 6]%Z.
Proof.
  apply (proj1 (vec_to_tri_round_trip Z 0%Z Z.add Z.add_0_l 3 (Nat.lt_0_succ 2))).
  reflexivity.
Defined.

(** C6 as it was stated fails at [N = 0]: for the vector of
    [0 = N (N + 1) / 2] elements there is no matrix to read back. *)
Lemma vec_to_tri_round_trip_fails_at_0 :
  ¬ ∃ m, vec_to_tri 0%Z Z.add (single []) 0 = Ok [m]
         ∧ read_lower_triangle 0 m = Some [].
Proof. intros (m & Hm & _). discriminate Hm. Qed.

(** ** The SGPMC model *)

Lemma foldl_ext_in {A B} (f g : A → B → A) (l : list B) (a : A) :
  (∀ acc x, x ∈ l → f acc x = g acc x) → foldl f a l = foldl g a l.
Proof.
  revert a. induction l as [|x l IH]; intros a H; simpl; [done |].
  rewrite H by constructor. apply IH.
  intros acc y Hy. apply H. by constructor.
Qed.

(** Summing a list is summing its elements by position. *)
Lemma foldl_by_position {A B} (add : A → B → A) (d : B) (l : list B) (a : A) :
  foldl add a l
  = foldl (λ acc j, add acc (default d (l !! j))) a (seq 0 (length l)).
Proof.
  revert a. induction l as [|x l IH] using rev_ind; intros a; [done |].
  rewrite length_app, Nat.add_comm. simpl length at 1. simpl Nat.add.
  rewrite seq_S, !foldl_app. simpl.
  rewrite list_lookup_middle by done. simpl. f_equal.
  rewrite IH. apply foldl_ext_in.
  intros acc j Hj. apply elem_of_seq in Hj.
  by rewrite lookup_app_l by lia.
Qed.

(** Summing [n] rows of [r] elements stored one after the other. *)
Lemma foldl_row_major {A B} (add : A → B → A) (d : B) (n r : nat)
    (l : list B) (a : A) :
  length l = n * r →
  foldl add a l
  = foldl (λ acc i,
      foldl (λ acc j, add acc (default d (l !! (i * r + j)))) acc (seq 0 r))
      a (seq 0 n).
Proof.
  revert l. induction n as [|n IH]; intros l Hlen.
  - by destruct l.
  - rewrite <- (take_drop (n * r) l) at 1.
    rewrite seq_S, !foldl_app. simpl.
    assert (Htake : length (take (n * r) l) = n * r)
      by (rewrite length_take; lia).
    assert (Hdrop : length (drop (n * r) l) = r)
      by (rewrite length_drop; lia).
    rewrite (IH (take (n * r) l) Htake).
    rewrite (foldl_by_position add d (drop (n * r) l)), Hdrop.
    rewrite (foldl_ext_in _
               (λ acc j, add acc (default d (l !! (n * r + j)))) (seq 0 r)).
    2:{ intros acc j Hj. by rewrite lookup_drop. }
    f_equal.
    apply foldl_ext_in. intros acc i Hi. apply elem_of_seq in Hi.
    apply foldl_ext_in. intros acc' j Hj. apply elem_of_seq in Hj.
    rewrite lookup_take_lt; [done |]. nia.
Qed.

Section ModelProps.
Context {Scalar : Type} (szero sone : Scalar) (sadd : Scalar → Scalar → Scalar).
Context (alloc_failure : list Z → option exn).
Context {Kernel Feature Kwargs : Type}.
Context
  (GPModel___init__ :
     Tensor Scalar → Tensor Scalar → Kernel → Likelihood Scalar →
     option (MeanFunction Scalar) → Kwargs → result (GPModel Scalar Kernel))
  (inducingpoint_wrapper :
     option Feature → option (Tensor Scalar) → result Feature)
  (len : Feature → nat)
  (conditional :
     Feature → Kernel → Tensor Scalar → Tensor Scalar → bool →
     option (Tensor Scalar) → bool → Tensor Scalar * Tensor Scalar)
  (tf_add : Tensor Scalar → Tensor Scalar → Tensor Scalar).

Local Abbreviation world := (world Scalar Kernel Feature).
Local Abbreviation predict := (_build_predict conditional tf_add).
Local Abbreviation loglik :=
  (_build_likelihood szero sadd conditional tf_add).
Local Abbreviation init :=
  (__init__ szero sone alloc_failure GPModel___init__ inducingpoint_wrapper
     len).

(** What a run of [_build_predict] returns and leaves behind. *)
Lemma run__build_predict (w : world) (Xnew : Tensor Scalar) (full_cov : bool) :
  let s := self w in
  let c := conditional (feature s) (kern (base s)) Xnew (value (_V s))
             full_cov None true in
  predict Xnew full_cov w
  = ((tf_add c.1 (__call__ (mean_function (base s)) Xnew), c.2),
     {| self := s;
        calls := calls w ++
          [Call_conditional (feature s) (kern (base s)) Xnew (value (_V s))
             full_cov None true;
           Call_mean_function Xnew] |}).
Proof.
  intros s c. unfold _build_predict, V, call_conditional,
    call_mean_function, called, getattr, mbind, mret, M_bind, M_ret.
  simpl. fold s. fold c. destruct c as [mu var]. simpl.
  by rewrite <- app_assoc.
Qed.

(** What a run of [_build_likelihood] returns and leaves behind. *)
Lemma run__build_likelihood (w : world) :
  let s := self w in
  let pred := (predict (X (base s)) false w).1 in
  let ve := variational_expectations (likelihood (base s))
              pred.1 pred.2 (Y (base s)) in
  loglik w
  = (tf_reduce_sum szero sadd ve,
     {| self := s;
        calls := calls (predict (X (base s)) false w).2 ++
          [Call_variational_expectations pred.1 pred.2 (Y (base s))] |}).
Proof.
  intros s pred ve. subst pred ve.
  unfold _build_likelihood, call_variational_expectations,
    called, getattr, mbind, mret, M_bind, M_ret.
  simpl. fold s. rewrite run__build_predict. fold s. simpl.
  by destruct (conditional _ _ _ _ _ _ _).
Qed.

(** C1. For every [Xnew] and [full_cov], [_build_predict] calls the
    conditional once, on the model's feature, kernel, [Xnew], the value
    of [V], [full_cov], no [q_sqrt] and [white] set, then the mean
    function on [Xnew]; it returns the conditional's mean plus the mean
    function's value, and the conditional's variance as it is. *)
Theorem _build_predict_conditional (w : world) (Xnew : Tensor Scalar)
    (full_cov : bool) :
  let s := self w in
  ∃ mu var,
    conditional (feature s) (kern (base s)) Xnew (value (_V s))
      full_cov None true = (mu, var)
    ∧ (predict Xnew full_cov w).1
      = (tf_add mu (__call__ (mean_function (base s)) Xnew), var)
    ∧ calls (predict Xnew full_cov w).2
      = calls w ++
          [Call_conditional (feature s) (kern (base s)) Xnew (value (_V s))
             full_cov None true;
           Call_mean_function Xnew]
    ∧ self (predict Xnew full_cov w).2 = s.
Proof.
  intros s. rewrite run__build_predict. fold s.
  destruct (conditional _ _ _ _ _ _ _) as [mu var].
  by exists mu, var.
Qed.

(** C2. [_build_likelihood] predicts at the training inputs [X] with
    [full_cov] off, hands the mean and variance it gets and the targets
    [Y] to the likelihood's variational expectations, and returns the
    sum of all elements of the result: for a result with [n] rows (data
    points) and [r] columns (output dimensions), the sum over all rows
    and columns. *)
Theorem _build_likelihood_sum (w : world) :
  let s := self w in
  let pred := (predict (X (base s)) false w).1 in
  let ve := variational_expectations (likelihood (base s))
              pred.1 pred.2 (Y (base s)) in
  (loglik w).1 = tf_reduce_sum szero sadd ve
  ∧ calls (loglik w).2
    = calls w ++
        [Call_conditional (feature s) (kern (base s)) (X (base s))
           (value (_V s)) false None true;
         Call_mean_function (X (base s));
         Call_variational_expectations pred.1 pred.2 (Y (base s))]
  ∧ shape (loglik w).1 = []
  ∧ ∀ n r, shape ve = [n; r] → length (data ve) = n * r →
      data (loglik w).1
      = [double_sum szero sadd n r
           (λ i j, default szero (tensor_entry ve i j))].
Proof.
  intros s pred ve. rewrite run__build_likelihood. fold s pred ve. simpl.
  split; [done |]. split; [| split; [done |]].
  - rewrite run__build_predict. simpl. by rewrite <- app_assoc.
  - intros n r Hshape Hlen. f_equal. unfold double_sum.
    rewrite (foldl_row_major sadd szero n r) by done.
    apply foldl_ext_in. intros acc i Hi. apply elem_of_seq in Hi.
    apply foldl_ext_in. intros acc' j Hj. apply elem_of_seq in Hj.
    unfold tensor_entry. rewrite Hshape.
    by rewrite !bool_decide_eq_true_2 by lia.
Qed.

Lemma np_zeros_matrix (n : nat) (l : Z) (z : Tensor Scalar) :
  np_zeros szero alloc_failure [Z.of_nat n; l] = Ok z →
  (0 ≤ l)%Z
  ∧ alloc_failure [Z.of_nat n; l] = None
  ∧ z = {| shape := [n; Z.to_nat l];
           data := replicate (n * Z.to_nat l) szero |}.
Proof.
  unfold np_zeros. simpl. rewrite andb_true_r.
  rewrite (bool_decide_eq_true_2 (0 ≤ Z.of_nat n)%Z) by lia. simpl.
  case_bool_decide; [| discriminate].
  destruct (alloc_failure _) as [e|]; [discriminate |]. intros [= <-].
  split; [done |]. split; [done |]. by rewrite Nat2Z.id, Nat.mul_1_r.
Qed.

(** The steps a successful construction went through. *)
Lemma __init___steps X Y kern lik feat mf nl Z_ kwargs m :
  init X Y kern lik feat mf nl Z_ kwargs = Ok m →
  ∃ g nd L,
    GPModel___init__ X Y kern lik mf kwargs = Ok g
    ∧ shape_at X 0 = Ok nd
    ∧ py_or nl (Z.of_nat <$> shape_at Y 1) = Ok (Z.of_nat L)
    ∧ inducingpoint_wrapper feat Z_ = Ok (feature m)
    ∧ num_data m = nd
    ∧ num_latent m = Z.of_nat L
    ∧ _V m = {| value := {| shape := [len (feature m); L];
                            data := replicate (len (feature m) * L) szero |};
                name := "V";
                prior := Some (Gaussian szero sone) |}
    ∧ base m = set__parameters g (_parameters g ++ [_V m]).
Proof.
  unfold __init__, mbind, result_mbind, result_bind.
  destruct (GPModel___init__ _ _ _ _ _ _) as [g|] eqn:Hg; [| discriminate].
  destruct (shape_at X 0) as [nd|] eqn:Hnd; [| discriminate].
  destruct (py_or nl _) as [l|] eqn:Hor; [| discriminate].
  destruct (inducingpoint_wrapper feat Z_) as [ft|] eqn:Hft; [| discriminate].
  destruct (np_zeros szero alloc_failure _) as [z|] eqn:Hz; [| discriminate].
  intros [= <-]. simpl.
  apply np_zeros_matrix in Hz as (Hl & _ & ->).
  exists g, nd, (Z.to_nat l). rewrite Z2Nat.id by done.
  repeat split; done.
Qed.

Lemma py_or_falsy (a : option Z) (b : result Z) : falsy a → py_or a b = b.
Proof. by intros [-> | ->]. Qed.

Lemma shape_at_Ok (t : Tensor Scalar) (i d : nat) :
  shape_at t i = Ok d ↔ shape t !! i = Some d.
Proof.
  unfold shape_at. destruct (shape t !! i); split; intros; by simplify_eq.
Qed.

Lemma fmap_shape_at_Ok (t : Tensor Scalar) (i : nat) (l : Z) :
  Z.of_nat <$> shape_at t i = Ok l →
  ∃ d, shape t !! i = Some d ∧ l = Z.of_nat d.
Proof.
  unfold shape_at, fmap, result_fmap.
  destruct (shape t !! i) as [d|]; [| discriminate].
  intros [= <-]. by exists d.
Qed.

(** C8. A constructed model, with [M] the length of its feature set and
    [L] its [num_latent] - the number of columns of [Y] when the
    argument is not given, the argument when it is given and not zero -
    has a parameter [V] whose value has shape [(M, L)], every element
    zero, whose prior is a Gaussian of mean 0 and variance 1, and which
    stands last in the parameter list, after those of the base class. *)
Theorem __init___V X Y kern lik feat mf nl Z_ kwargs m :
  init X Y kern lik feat mf nl Z_ kwargs = Ok m →
  ∃ g L,
    GPModel___init__ X Y kern lik mf kwargs = Ok g
    ∧ inducingpoint_wrapper feat Z_ = Ok (feature m)
    ∧ num_latent m = Z.of_nat L
    ∧ (nl = None → shape Y !! 1 = Some L)
    ∧ (∀ n, nl = Some n → n ≠ 0%Z → Z.of_nat L = n)
    ∧ shape (value (_V m)) = [len (feature m); L]
    ∧ length (data (value (_V m))) = len (feature m) * L
    ∧ (∀ i j, i < len (feature m) → j < L →
         tensor_entry (value (_V m)) i j = Some szero)
    ∧ (∀ x, x ∈ data (value (_V m)) → x = szero)
    ∧ prior (_V m) = Some (Gaussian szero sone)
    ∧ name (_V m) = "V"%string
    ∧ _parameters (base m) = _parameters g ++ [_V m].
Proof.
  intros Hinit.
  apply __init___steps in Hinit
    as (g & nd & L & Hg & Hnd & Hor & Hft & Hdata & HL & HV & Hbase).
  exists g, L. rewrite Hbase, HV. simpl.
  split; [done |]. split; [done |]. split; [done |].
  split; [| split; [| split; [done |]]].
  - intros ->. simpl in Hor.
    apply fmap_shape_at_Ok in Hor as (d & Hd & Heq).
    by rewrite Hd, (Nat2Z.inj _ _ Heq).
  - intros n -> Hn. simpl in Hor.
    rewrite bool_decide_eq_true_2 in Hor by done. by injection Hor.
  - split; [by rewrite length_replicate |].
    split; [| split; [| done]].
    + intros i j Hi Hj. unfold tensor_entry. simpl.
      rewrite !bool_decide_eq_true_2 by done. simpl.
      apply lookup_replicate_2. nia.
    + intros x Hx. by apply elem_of_replicate in Hx as [-> _].
Qed.

(** C10. A falsy [num_latent] argument - [None], or the integer 0 - is
    as good as none: construction goes as with [None], and [num_latent]
    is the number of columns of [Y]. An argument that is not zero is
    taken; and only then can [num_latent] differ from the number of
    columns of [Y]. *)
Theorem __init___num_latent_falsy X Y kern lik feat mf Z_ kwargs :
  (∀ a, falsy a →
     init X Y kern lik feat mf a Z_ kwargs
     = init X Y kern lik feat mf None Z_ kwargs)
  ∧ (∀ a m, falsy a →
       init X Y kern lik feat mf a Z_ kwargs = Ok m →
       ∃ cols, shape Y !! 1 = Some cols ∧ num_latent m = Z.of_nat cols)
  ∧ (∀ n m, n ≠ 0%Z →
       init X Y kern lik feat mf (Some n) Z_ kwargs = Ok m →
       num_latent m = n)
  ∧ (∀ a m cols,
       init X Y kern lik feat mf a Z_ kwargs = Ok m →
       shape Y !! 1 = Some cols →
       num_latent m ≠ Z.of_nat cols →
       ∃ n, a = Some n ∧ n ≠ 0%Z ∧ num_latent m = n).
Proof.
  split; [| split; [| split]].
  - intros a Ha. unfold __init__. by rewrite (py_or_falsy a _ Ha).
  - intros a m Ha Hinit.
    apply __init___steps in Hinit
      as (g & nd & L & _ & _ & Hor & _ & _ & HL & _).
    rewrite (py_or_falsy a _ Ha) in Hor.
    apply fmap_shape_at_Ok in Hor as (d & Hd & Heq).
    exists d. by rewrite HL, Heq.
  - intros n m Hn Hinit.
    apply __init___steps in Hinit
      as (g & nd & L & _ & _ & Hor & _ & _ & HL & _).
    simpl in Hor. rewrite bool_decide_eq_true_2 in Hor by done.
    rewrite HL. by injection Hor.
  - intros a m cols Hinit Hcols Hne.
    apply __init___steps in Hinit
      as (g & nd & L & _ & _ & Hor & _ & _ & HL & _).
    destruct a as [n|]; simpl in Hor.
    + case_bool_decide as Hn.
      * exists n. rewrite HL. injection Hor as ->. done.
      * apply fmap_shape_at_Ok in Hor as (d & Hd & Heq).
        rewrite Hcols in Hd. injection Hd as ->. congruence.
    + apply fmap_shape_at_Ok in Hor as (d & Hd & Heq).
      rewrite Hcols in Hd. injection Hd as ->. congruence.
Qed.

End ModelProps.

(** ** The methods over collaborators with effects *)

Section EffectProps.
Context {Scalar Kernel Feature Env : Type}.

Local Abbreviation M := (Effectful.M Scalar Kernel Feature Env).
Local Abbreviation eworld := (Effectful.world Scalar Kernel Feature Env).
#[local] Existing Instance Effectful.M_ret.
#[local] Existing Instance Effectful.M_bind.

Lemma reads_only_ret {A} (a : A) : Effectful.reads_only (mret a : M A).
Proof. intros w. split; [done |]. by intros w' _. Qed.

Lemma reads_only_getattr {A} (attr : SGPMC Scalar Kernel Feature → A) :
  Effectful.reads_only (Effectful.getattr attr : M A).
Proof.
  intros w. split; [done |]. intros w' Hw. unfold Effectful.getattr. simpl.
  by rewrite Hw.
Qed.

Lemma reads_only_pure_call {A} (c : M A) :
  Effectful.pure_call c → Effectful.reads_only c.
Proof.
  intros [a Ha] w. split; [apply Ha |]. intros w' _.
  destruct (Ha w) as [-> _]. apply Ha.
Qed.

Lemma reads_only_bind {A B} (m : M A) (f : A → M B) :
  Effectful.reads_only m → (∀ a, Effectful.reads_only (f a)) →
  Effectful.reads_only (m ≫= f).
Proof.
  intros Hm Hf w. unfold mbind, Effectful.M_bind.
  destruct (Hm w) as [Hself Hval].
  destruct (m w) as [a w1] eqn:Ew. simpl in *. split.
  - destruct (Hf a w1) as [Hself1 _]. congruence.
  - intros w' Hw'. specialize (Hval w' Hw').
    destruct (Hm w') as [Hself' _].
    destruct (m w') as [a' w1'] eqn:Ew'. simpl in *. subst a'.
    destruct (Hf a w1) as [_ Hval1]. apply Hval1. congruence.
Qed.

Context
  (conditional :
     Feature → Kernel → Tensor Scalar → Tensor Scalar → bool →
     option (Tensor Scalar) → bool → M (Tensor Scalar * Tensor Scalar))
  (call_mean_function : MeanFunction Scalar → Tensor Scalar → M (Tensor Scalar))
  (variational_expectations :
     Likelihood Scalar → Tensor Scalar → Tensor Scalar → Tensor Scalar →
     M (Tensor Scalar))
  (tf_add : Tensor Scalar → Tensor Scalar → M (Tensor Scalar))
  (tf_reduce_sum : Tensor Scalar → M (Tensor Scalar)).

Local Abbreviation epredict :=
  (Effectful._build_predict conditional call_mean_function tf_add).
Local Abbreviation eloglik :=
  (Effectful._build_likelihood conditional call_mean_function
     variational_expectations tf_add tf_reduce_sum).

Hypothesis conditional_pure :
  ∀ feat k Xnew f full_cov q_sqrt white,
    Effectful.pure_call (conditional feat k Xnew f full_cov q_sqrt white).
Hypothesis mean_function_pure :
  ∀ mf Xnew, Effectful.pure_call (call_mean_function mf Xnew).
Hypothesis variational_expectations_pure :
  ∀ lik Fmu Fvar Y,
    Effectful.pure_call (variational_expectations lik Fmu Fvar Y).
Hypothesis tf_add_pure : ∀ a b, Effectful.pure_call (tf_add a b).
Hypothesis tf_reduce_sum_pure : ∀ t, Effectful.pure_call (tf_reduce_sum t).

Lemma reads_only__build_predict Xnew full_cov :
  Effectful.reads_only (epredict Xnew full_cov).
Proof using conditional_pure mean_function_pure tf_add_pure.
  unfold Effectful._build_predict, Effectful.V.
  apply reads_only_bind; [apply reads_only_getattr | intros feat].
  apply reads_only_bind; [apply reads_only_getattr | intros k].
  apply reads_only_bind.
  { apply reads_only_bind; [apply reads_only_getattr | intros p].
    apply reads_only_ret. }
  intros v.
  apply reads_only_bind; [by apply reads_only_pure_call | intros [mu var]].
  apply reads_only_bind; [apply reads_only_getattr | intros mf].
  apply reads_only_bind; [by apply reads_only_pure_call | intros m].
  apply reads_only_bind; [by apply reads_only_pure_call | intros mean].
  apply reads_only_ret.
Qed.

Lemma reads_only__build_likelihood : Effectful.reads_only eloglik.
Proof using All.
  unfold Effectful._build_likelihood.
  apply reads_only_bind; [apply reads_only_getattr | intros x].
  apply reads_only_bind; [apply reads_only__build_predict | intros [fmean fvar]].
  apply reads_only_bind; [apply reads_only_getattr | intros lik].
  apply reads_only_bind; [apply reads_only_getattr | intros y].
  apply reads_only_bind; [by apply reads_only_pure_call | intros ve].
  by apply reads_only_pure_call.
Qed.

End EffectProps.

(** C9. Let the collaborators be computations that may read and change
    the state outside the object, and suppose each call of one returns a
    value fixed by its arguments and leaves the object as it is. Then
    [_build_likelihood] leaves the object as it is, its result is fixed
    by the object (by the value of [V], the data and the collaborator
    objects it holds) whatever the state outside, and a second
    evaluation returns what the first returned. *)
Theorem _build_likelihood_repeatable :
  ∀ (Scalar Kernel Feature Env : Type)
    (conditional :
       Feature → Kernel → Tensor Scalar → Tensor Scalar → bool →
       option (Tensor Scalar) → bool →
       Effectful.M Scalar Kernel Feature Env (Tensor Scalar * Tensor Scalar))
    (call_mean_function :
       MeanFunction Scalar → Tensor Scalar →
       Effectful.M Scalar Kernel Feature Env (Tensor Scalar))
    (variational_expectations :
       Likelihood Scalar → Tensor Scalar → Tensor Scalar → Tensor Scalar →
       Effectful.M Scalar Kernel Feature Env (Tensor Scalar))
    (tf_add :
       Tensor Scalar → Tensor Scalar →
       Effectful.M Scalar Kernel Feature Env (Tensor Scalar))
    (tf_reduce_sum :
       Tensor Scalar → Effectful.M Scalar Kernel Feature Env (Tensor Scalar)),
    (∀ feat k Xnew f full_cov q_sqrt white,
       Effectful.pure_call (conditional feat k Xnew f full_cov q_sqrt white)) →
    (∀ mf Xnew, Effectful.pure_call (call_mean_function mf Xnew)) →
    (∀ lik Fmu Fvar Y,
       Effectful.pure_call (variational_expectations lik Fmu Fvar Y)) →
    (∀ a b, Effectful.pure_call (tf_add a b)) →
    (∀ t, Effectful.pure_call (tf_reduce_sum t)) →
    let loglik :=
      Effectful._build_likelihood conditional call_mean_function
        variational_expectations tf_add tf_reduce_sum in
    (∀ w, Effectful.self (loglik w).2 = Effectful.self w)
    ∧ (∀ w w', Effectful.self w = Effectful.self w' →
         (loglik w).1 = (loglik w').1)
    ∧ (∀ w, (loglik (loglik w).2).1 = (loglik w).1).
Proof.
  intros Scalar Kernel Feature Env conditional call_mean_function
    variational_expectations tf_add tf_reduce_sum Hc Hm Hv Ha Hr loglik.
  pose proof (reads_only__build_likelihood conditional call_mean_function
                variational_expectations tf_add tf_reduce_sum
                Hc Hm Hv Ha Hr) as Hro.
  fold loglik in Hro. split; [| split].
  - intros w. apply Hro.
  - intros w w' Hw. by apply Hro.
  - intros w. apply Hro. apply Hro.
Qed.

Lemma pure_call_node {A} (a : A) : Effectful.pure_call (ToyEffects.node a).
Proof. exists a. intros w. split; reflexivity. Qed.

(** Two evaluations on the small model, each adding five nodes to the
    graph. *)
Lemma _build_likelihood_repeatable_witness :
  let loglik :=
    Effectful._build_likelihood ToyEffects.conditional
      ToyEffects.call_mean_function ToyEffects.variational_expectations
      ToyEffects.tf_add ToyEffects.tf_reduce_sum in
  let w := {| Effectful.self := Toy.model; Effectful.env := 0 |} in
  (loglik (loglik w).2).1 = (loglik w).1
  ∧ Effectful.env (loglik (loglik w).2).2 = 10.
Proof.
  intros loglik w. split; [| reflexivity].
  apply (_build_likelihood_repeatable Z unit nat nat
           ToyEffects.conditional ToyEffects.call_mean_function
           ToyEffects.variational_expectations ToyEffects.tf_add
           ToyEffects.tf_reduce_sum
           (λ feat k Xnew f full_cov q_sqrt white, pure_call_node _)
           (λ mf Xnew, pure_call_node _)
           (λ lik Fmu Fvar Y, pure_call_node _)
           (λ a b, pure_call_node _)
           (λ t, pure_call_node _)).
Defined.

(** With a reduction that reads the state outside, the premise fails and
    so does the conclusion: the second evaluation returns another
    value. *)
Example stateful_reduction_not_repeatable :
  let loglik :=
    Effectful._build_likelihood ToyEffects.conditional
      ToyEffects.call_mean_function ToyEffects.variational_expectations
      ToyEffects.tf_add ToyEffects.stateful_reduce_sum in
  let w := {| Effectful.self := Toy.model; Effectful.env := 0 |} in
  data (loglik w).1 = [(-1)%Z] ∧ data (loglik (loglik w).2).1 = [4%Z].
Proof. split; reflexivity. Qed.

(** The embedding with functions for collaborators is the one with
    effects, the state outside being the list of calls. *)
Lemma effectful_with_call_log :
  ∀ (Scalar Kernel Feature : Type) (szero : Scalar)
    (sadd : Scalar → Scalar → Scalar)
    (conditional :
       Feature → Kernel → Tensor Scalar → Tensor Scalar → bool →
       option (Tensor Scalar) → bool → Tensor Scalar * Tensor Scalar)
    (tf_add : Tensor Scalar → Tensor Scalar → Tensor Scalar)
    (w : world Scalar Kernel Feature),
    let logged {A} (c : call Scalar Kernel Feature) (a : A)
      : Effectful.M Scalar Kernel Feature (list (call Scalar Kernel Feature)) A :=
      λ ew, (a, {| Effectful.self := Effectful.self ew;
                   Effectful.env := Effectful.env ew ++ [c] |}) in
    let silent {A} (a : A)
      : Effectful.M Scalar Kernel Feature (list (call Scalar Kernel Feature)) A :=
      λ ew, (a, ew) in
    let run :=
      Effectful._build_likelihood
        (λ feat k Xnew f full_cov q_sqrt white,
           logged (Call_conditional feat k Xnew f full_cov q_sqrt white)
                  (conditional feat k Xnew f full_cov q_sqrt white))
        (λ mf Xnew, logged (Call_mean_function Xnew) (__call__ mf Xnew))
        (λ lik Fmu Fvar Y,
           logged (Call_variational_expectations Fmu Fvar Y)
                  (variational_expectations lik Fmu Fvar Y))
        (λ a b, silent (tf_add a b))
        (λ t, silent (tf_reduce_sum szero sadd t))
        {| Effectful.self := self w; Effectful.env := calls w |} in
    run.1 = (_build_likelihood szero sadd conditional tf_add w).1
    ∧ Effectful.self run.2 = self (_build_likelihood szero sadd conditional tf_add w).2
    ∧ Effectful.env run.2 = calls (_build_likelihood szero sadd conditional tf_add w).2.
Proof.
  intros Scalar Kernel Feature szero sadd conditional tf_add w logged silent run.
  subst run logged silent.
  rewrite run__build_likelihood, run__build_predict.
  unfold Effectful._build_likelihood, Effectful._build_predict, Effectful.V,
    Effectful.getattr, mbind, mret, Effectful.M_bind, Effectful.M_ret.
  simpl. destruct (conditional _ _ _ _ _ _ _) as [mu var]. simpl.
  split; [done |]. split; [done |]. by rewrite <- !app_assoc.
Qed.

(** ** The statements on the small model *)

Lemma _build_likelihood_sum_witness :
  let w := {| self := Toy.model; calls := [] |} in
  data (_build_likelihood 0%Z Z.add Toy.conditional Toy.tf_add w).1
  = [double_sum 0%Z Z.add 3 2
       (λ i j, default 0%Z
          (tensor_entry
             {| shape := [3; 2]; data := [0; 0; 0; -1; -4; 0]%Z |} i j))].
Proof.
  intros w.
  destruct (_build_likelihood_sum 0%Z Z.add Toy.conditional Toy.tf_add w)
    as (_ & _ & _ & Hsum).
  apply (Hsum 3 2); reflexivity.
Defined.

Lemma __init___V_witness :
  __init__ 0%Z 1%Z Toy.alloc_failure
    Toy.GPModel___init__ Toy.inducingpoint_wrapper Toy.len
    Toy.inputs Toy.targets () Toy.squared_error (Some 2) None None None ()
  = Ok Toy.model
  ∧ ∃ L, num_latent Toy.model = Z.of_nat L
         ∧ shape (value (_V Toy.model)) = [2; L]
         ∧ prior (_V Toy.model) = Some (Gaussian 0%Z 1%Z).
Proof.
  split; [reflexivity |].
  destruct (__init___V 0%Z 1%Z Toy.alloc_failure
    Toy.GPModel___init__ Toy.inducingpoint_wrapper
              Toy.len Toy.inputs Toy.targets () Toy.squared_error (Some 2) None None None
              () Toy.model eq_refl)
    as (g & L & _ & _ & HL & _ & _ & Hshape & _ & _ & _ & Hprior & _).
  exists L. split; [exact HL |]. split; [exact Hshape | exact Hprior].
Defined.

Lemma __init___num_latent_falsy_witness :
  __init__ 0%Z 1%Z Toy.alloc_failure
    Toy.GPModel___init__ Toy.inducingpoint_wrapper Toy.len
    Toy.inputs Toy.targets () Toy.squared_error (Some 2) None (Some 0%Z) None ()
  = Ok Toy.model.
Proof.
  rewrite (proj1 (__init___num_latent_falsy 0%Z 1%Z Toy.alloc_failure
    Toy.GPModel___init__
                    Toy.inducingpoint_wrapper Toy.len Toy.inputs Toy.targets ()
                    Toy.squared_error (Some 2) None None ())
             (Some 0%Z) (or_intror eq_refl)).
  reflexivity.
Defined.


(** * Further properties of [misc.py] *)

Open Scope string_scope.

Lemma not_scalar_not_arraylike_cases (v : pyval) :
  is_tensor v = true ∨ is_None v = true ∨ isinstance v [C_str] = true →
  is_scalar v = false ∧ is_arraylike v = false.
Proof.
  destruct v as [| | | | | | | | | t | | | |];
    try (vm_compute; intuition congruence).
  destruct t; vm_compute; intuition congruence.
Qed.

(** The four class predicates never agree: a value is an array, a list, a
    tensor or a number, or none of these, and never two of them. *)
Theorem predicates_exclusive (v : pyval) :
  is_ndarray v && is_list v = false
  ∧ is_ndarray v && is_tensor v = false
  ∧ is_ndarray v && is_number v = false
  ∧ is_list v && is_tensor v = false
  ∧ is_list v && is_number v = false
  ∧ is_tensor v && is_number v = false.
Proof.
  destruct v as [| | | | | | | | | t | | | |];
    try (vm_compute; done).
  destruct t; vm_compute; done.
Qed.

(** The items of a list are judged by their class alone: a non-empty list
    whose items are lists is valid whatever those lists hold, and however
    long each is. So the list holding only the empty list is valid,
    though the empty list is not. *)
Theorem is_valid_param_value_nested (inners : list (list pyval)) :
  inners ≠ [] →
  is_valid_param_value (PyList (PyList <$> inners)) = true.
Proof.
  destruct inners as [|inner inners]; [done |]. intros _.
  rewrite fmap_cons, valid_cons.
  change (is_scalar (PyList inner)) with false.
  change (is_arraylike (PyList inner)) with true. cbv iota.
  apply forallb_Forall_true, Forall_fmap, Forall_true. done.
Qed.

Lemma is_valid_param_value_nested_witness :
  is_valid_param_value (PyList [PyList []]) = true
  ∧ is_valid_param_value (PyList [PyList [PyStr "a"]; PyList []]) = true
  ∧ is_valid_param_value (PyList []) = false.
Proof.
  split; [| split; [| reflexivity]].
  - apply (is_valid_param_value_nested [[]]). done.
  - apply (is_valid_param_value_nested [[PyStr "a"]; []]). done.
Defined.

(** A list is rejected as soon as one of its items, at any position, is
    neither a scalar nor a list or array. Tensors, [None] and strings are
    such items: a tensor is valid by itself, and no list holding one is. *)
Theorem is_valid_param_value_list_item (items : list pyval) (v : pyval) :
  v ∈ items →
  (is_scalar v = false ∧ is_arraylike v = false
   → is_valid_param_value (PyList items) = false)
  ∧ (is_tensor v = true ∨ is_None v = true ∨ isinstance v [C_str] = true
     → is_valid_param_value (PyList items) = false)
  ∧ (is_tensor v = true → is_valid_param_value v = true).
Proof.
  intros Hv.
  assert (Hrej : is_scalar v = false ∧ is_arraylike v = false →
                 is_valid_param_value (PyList items) = false).
  { intros [Hs Ha]. destruct items as [|x rest]; [by apply elem_of_nil in Hv |].
    rewrite valid_cons. apply elem_of_cons in Hv as [-> | Hv].
    - by rewrite Hs, Ha.
    - destruct (is_scalar x).
      + apply not_true_is_false. rewrite forallb_Forall_true, Forall_forall.
        intros Hall. specialize (Hall v Hv). congruence.
      + destruct (is_arraylike x); [| done].
        apply not_true_is_false. rewrite forallb_Forall_true, Forall_forall.
        intros Hall. specialize (Hall v Hv). congruence. }
  split; [exact Hrej |]. split.
  - intros Hc. by apply Hrej, not_scalar_not_arraylike_cases.
  - clear. destruct v as [| | | | | | | | | t | | | |];
      try (vm_compute; congruence).
    destruct t; vm_compute; congruence.
Qed.

Lemma is_valid_param_value_list_item_witness :
  is_valid_param_value (PyList [PyFloat 1; TfTensor "t"; PyFloat 2]) = false
  ∧ is_valid_param_value (TfTensor "t") = true.
Proof.
  destruct (is_valid_param_value_list_item
              [PyFloat 1; TfTensor "t"; PyFloat 2] (TfTensor "t"))
    as (_ & Hrej & Hok); [do 2 constructor |].
  split; [apply Hrej; left; reflexivity | apply Hok; reflexivity].
Defined.

(** Whatever [normalize_num_type] returns is one of the two configured
    types; and when the configured float type is itself a 32- or 64-bit
    float and the configured int type a 16-, 32- or 64-bit signed integer,
    normalising a result again returns it unchanged. *)
Theorem normalize_num_type_idempotent
    (numpy_type_of : tf_dtype → result np_type) (s : Settings)
    (d : num_type) (r : np_type) :
  normalize_num_type numpy_type_of s d = Ok r →
  (r = float_type s ∨ r = int_type s)
  ∧ (float_32_64 (float_type s) → int_16_32_64 (int_type s) →
     normalize_num_type numpy_type_of s (Native r) = Ok r).
Proof.
  intros Hr.
  assert (Hcases : r = float_type s ∨ r = int_type s).
  { revert Hr. unfold normalize_num_type, mbind, result_mbind, result_bind.
    destruct (unwrap numpy_type_of d) as [t|]; [| discriminate].
    repeat case_bool_decide; intros [= <-]; auto. }
  split; [exact Hcases |]. intros Hf Hi.
  apply float_32_64_iff in Hf. apply int_16_32_64_iff in Hi.
  unfold normalize_num_type, mbind, result_mbind, result_bind. simpl.
  destruct Hcases as [-> | ->].
  - by rewrite (bool_decide_eq_true_2 _ Hf).
  - rewrite (bool_decide_eq_true_2 _ Hi). case_bool_decide; [| done].
    exfalso. by_members.
Qed.

Lemma normalize_num_type_idempotent_witness :
  let s := {| float_type := np_float32; int_type := np_int32 |} in
  normalize_num_type as_numpy_dtype_type s (Native np_float32)
  = Ok np_float32.
Proof.
  intros s.
  apply (normalize_num_type_idempotent as_numpy_dtype_type s
           (Native np_float64) np_float32 eq_refl).
  - split; [reflexivity | left; reflexivity].
  - split; [reflexivity | right; left; reflexivity].
Defined.

Close Scope string_scope.

(** * Further properties of [vec_to_tri] *)

Lemma lex_lt_tri_num (r c r' c' : nat) :
  c ≤ r → c' ≤ r' → tri_num r + c < tri_num r' + c' → lex_lt (r, c) (r', c').
Proof.
  intros Hc Hc' Hlt. unfold lex_lt. simpl.
  destruct (decide (r < r')) as [? | Hge]; [by left |]. right.
  destruct (decide (r = r')) as [-> | Hne]; [lia |].
  pose proof (tri_num_lt r' r). lia.
Qed.

(** The index list [vec_to_tri] scatters with: it names each position of
    the lower triangle of an [N x N] matrix, diagonal included, once and
    no other position, [N (N + 1) / 2] of them, in lexicographic order;
    so no two updates of a vector ever meet at one position. *)
Theorem tril_index_tensor_invariant (N : nat) :
  length (tril_index_tensor N) = N * (N + 1) / 2
  ∧ NoDup (tril_index_tensor N)
  ∧ (∀ r c, (r, c) ∈ tril_index_tensor N ↔ c ≤ r ∧ r < N)
  ∧ (∀ k k' a b,
       k < k' →
       tril_index_tensor N !! k = Some a →
       tril_index_tensor N !! k' = Some b →
       lex_lt a b).
Proof.
  rewrite tril_index_tensor_pairs, <- tri_num_closed.
  split; [apply length_tril_pairs |]. split; [apply NoDup_tril_pairs |].
  split; [apply elem_of_tril_pairs |].
  intros k k' [r c] [r' c'] Hlt Hk Hk'.
  apply lookup_tril_pairs in Hk as (Hc & _ & ->).
  apply lookup_tril_pairs in Hk' as (Hc' & _ & ->).
  by apply lex_lt_tri_num.
Qed.

Lemma tril_index_tensor_invariant_witness :
  lex_lt (1, 1) (2, 0) ∧ (2, 1) ∈ tril_index_tensor 3.
Proof.
  destruct (tril_index_tensor_invariant 3) as (_ & _ & Hin & Hsorted).
  split.
  - apply (Hsorted 2 3); [lia | reflexivity | reflexivity].
  - apply Hin. lia.
Defined.

Section ScatterMore.
Context {Scalar : Type} (szero : Scalar) (sadd : Scalar → Scalar → Scalar).
Implicit Types (m : list (list Scalar)) (v w : list Scalar).

Lemma vec_to_tri_vector_bad_length N v :
  0 < N → length v ≠ tri_num N →
  vec_to_tri_vector szero sadd (tf_constant (tril_index_tensor N)) N v
  = Raise (ScatterShapeError [tri_num N; 2] [length v] (N, N)).
Proof.
  intros HN Hlen. rewrite tril_index_tensor_pairs.
  unfold vec_to_tri_vector, scatter_nd. rewrite (index_shape_tril N HN).
  rewrite bool_decide_eq_false_2; [done |]. congruence.
Qed.

Lemma vec_to_tri_vector_size_0 v :
  vec_to_tri_vector szero sadd (tf_constant (tril_index_tensor 0)) 0 v
  = Raise (ScatterShapeError [0] [length v] (0, 0)).
Proof. reflexivity. Qed.

(** What building the graph of [vec_to_tri_vector] for a row of [M]
    elements comes to. *)
Lemma vec_to_tri_vector_cases N v :
  (0 < N ∧ length v = tri_num N
   ∧ vec_to_tri_vector szero sadd (tf_constant (tril_index_tensor N)) N v
     = Ok (tril_matrix szero sadd N v))
  ∨ (∃ e, exn_class e = "ValueError"%string
          ∧ (N = 0 ∨ length v ≠ tri_num N)
          ∧ vec_to_tri_vector szero sadd
              (tf_constant (tril_index_tensor N)) N v = Raise e).
Proof.
  destruct (decide (0 < N)) as [HN | HN].
  - destruct (decide (length v = tri_num N)) as [Hlen | Hlen].
    + left. split; [done |]. split; [done | by apply vec_to_tri_vector_ok].
    + right. eexists. split; [| split; [by right |]].
      2: by apply vec_to_tri_vector_bad_length. done.
  - right. assert (N = 0) as -> by lia. eexists.
    split; [| split; [by left | apply vec_to_tri_vector_size_0]]. done.
Qed.

(** On a [D x M] batch, [vec_to_tri] returns matrices exactly when
    [N >= 1] and [M = N (N + 1) / 2]. Otherwise it raises, whatever [D]
    is and also for the batch of no vector, and what it raises is a
    [ValueError], of the shape check of the scatter primitive: a vector
    is never truncated or padded. *)
Theorem vec_to_tri_succeeds_iff (vectors : Batch Scalar) (N : nat) :
  rectangular vectors →
  ((∃ out, vec_to_tri szero sadd vectors N = Ok out)
   ↔ 0 < N ∧ (batch_dims vectors).2 = N * (N + 1) / 2)
  ∧ (∀ e, vec_to_tri szero sadd vectors N = Raise e →
       exn_class e = "ValueError"%string
       ∧ (N = 0 ∨ (batch_dims vectors).2 ≠ N * (N + 1) / 2)).
Proof.
  intros Hrect. rewrite <- tri_num_closed.
  pose proof (vec_to_tri_vector_cases N
                (replicate (batch_dims vectors).2 szero)) as Htrace.
  rewrite length_replicate in Htrace.
  split; [split |].
  - intros [out Hout]. unfold vec_to_tri, tf_map_fn in Hout.
    unfold mbind, result_mbind, result_bind in Hout.
    destruct Htrace as [(HN & Hw & _) | (e & _ & _ & He)]; [done |].
    rewrite He in Hout. discriminate.
  - intros [HN Hw]. eexists. by apply vec_to_tri_ok.
  - intros e He.
    destruct Htrace as [(HN & Hw & _) | (e' & Hcls & Hwhy & He')].
    + rewrite vec_to_tri_ok in He by done. discriminate.
    + unfold vec_to_tri, tf_map_fn in He.
      unfold mbind, result_mbind, result_bind in He.
      rewrite He' in He. injection He as <-. done.
Qed.

Lemma entry_is_Some N m r c :
  square N m → r < N → c < N → is_Some (entry m (r, c)).
Proof.
  intros [Hlen Hrows] Hr Hc. unfold entry. simpl.
  destruct (lookup_lt_is_Some_2 m r) as [row Hrow]; [lia |].
  rewrite Hrow. simpl. apply lookup_lt_is_Some_2.
  by rewrite (Forall_lookup_1 _ _ _ _ Hrows Hrow).
Qed.

(** A square matrix is its entries. *)
Lemma square_ext N m m' :
  square N m → square N m' →
  (∀ r c, r < N → c < N → entry m (r, c) = entry m' (r, c)) →
  m = m'.
Proof.
  intros [Hlen Hrows] [Hlen' Hrows'] Hentries. apply list_eq. intros r.
  destruct (decide (r < N)) as [Hr | Hr].
  - destruct (lookup_lt_is_Some_2 m r) as [row Hrow]; [lia |].
    destruct (lookup_lt_is_Some_2 m' r) as [row' Hrow']; [lia |].
    rewrite Hrow, Hrow'. f_equal. apply list_eq. intros c.
    pose proof (Forall_lookup_1 _ _ _ _ Hrows Hrow) as Hl.
    pose proof (Forall_lookup_1 _ _ _ _ Hrows' Hrow') as Hl'.
    simpl in Hl, Hl'.
    destruct (decide (c < N)) as [Hc | Hc].
    + specialize (Hentries r c Hr Hc). unfold entry in Hentries.
      simpl in Hentries. by rewrite Hrow, Hrow' in Hentries.
    + rewrite !lookup_ge_None_2 by lia. done.
  - rewrite !lookup_ge_None_2 by lia. done.
Qed.

Lemma entry_zip_with (f : Scalar → Scalar → Scalar) m m' ix :
  entry (zip_with (zip_with f) m m') ix
  = x ← entry m ix; y ← entry m' ix; Some (f x y).
Proof.
  destruct ix as [r c]. unfold entry. simpl. rewrite lookup_zip_with.
  destruct (m !! r) as [row|]; simpl; [| done].
  destruct (m' !! r) as [row'|]; simpl.
  - by rewrite lookup_zip_with.
  - by destruct (row !! c).
Qed.

Lemma square_zip_with (f : Scalar → Scalar → Scalar) N m m' :
  square N m → square N m' → square N (zip_with (zip_with f) m m').
Proof.
  intros [Hlen Hrows] [Hlen' Hrows']. split.
  - rewrite length_zip_with. lia.
  - apply Forall_lookup. intros i row Hi.
    apply lookup_zip_with_Some in Hi as (ra & rb & -> & Ha & Hb).
    rewrite length_zip_with.
    pose proof (Forall_lookup_1 _ _ _ _ Hrows Ha) as Hl.
    pose proof (Forall_lookup_1 _ _ _ _ Hrows' Hb) as Hl'.
    simpl in Hl, Hl'. lia.
Qed.

Hypothesis sadd_zero_l : ∀ x, sadd szero x = x.

Lemma tril_matrix_zip_with N v w :
  length v = tri_num N → length w = tri_num N →
  tril_matrix szero sadd N (zip_with sadd v w)
  = zip_with (zip_with sadd)
      (tril_matrix szero sadd N v) (tril_matrix szero sadd N w).
Proof using sadd_zero_l.
  intros Hv Hw. apply (square_ext N).
  - apply square_tril_matrix.
  - apply square_zip_with; apply square_tril_matrix.
  - intros r c Hr Hc. rewrite entry_zip_with.
    destruct (decide (c ≤ r)) as [Hle | Hgt].
    + rewrite !(entry_tril_matrix_lower szero sadd sadd_zero_l)
        by (rewrite ?length_zip_with; lia).
      rewrite lookup_zip_with.
      destruct (v !! (tri_num r + c)); simpl; [| done].
      by destruct (w !! (tri_num r + c)).
    + rewrite !(entry_tril_matrix_upper szero sadd) by lia. simpl.
      by rewrite sadd_zero_l.
Qed.

Lemma tril_matrix_read_tril N m v :
  square N m →
  (∀ r c, r < c → c < N → entry m (r, c) = Some szero) →
  read_lower_triangle N m = Some v →
  length v = tri_num N ∧ tril_matrix szero sadd N v = m.
Proof using sadd_zero_l.
  intros Hsq Hupper Hread. unfold read_lower_triangle in Hread.
  apply mapM_Some_1 in Hread.
  assert (Hlen : length v = tri_num N).
  { by rewrite <- (Forall2_length _ _ _ Hread), length_tril_pairs. }
  split; [done |]. apply (square_ext N); [apply square_tril_matrix | done |].
  intros r c Hr Hc. destruct (decide (c ≤ r)) as [Hle | Hgt].
  - rewrite (entry_tril_matrix_lower szero sadd sadd_zero_l) by done.
    assert (Hk : tril_pairs N !! (tri_num r + c) = Some (r, c))
      by (by apply lookup_tril_pairs).
    destruct (Forall2_lookup_l _ _ _ _ _ Hread Hk) as (u & Hu & Hentry).
    by rewrite Hu, Hentry.
  - rewrite (entry_tril_matrix_upper szero sadd) by lia.
    symmetry. apply Hupper; lia.
Qed.

End ScatterMore.

(** A batch of two vectors of two elements, and the batch of no vector of
    two elements, where [N = 2] asks for three. *)
Lemma vec_to_tri_succeeds_iff_witness :
  exn_class (ScatterShapeError [3; 2] [2] (2, 2)) = "ValueError"%string
  ∧ vec_to_tri 0%Z Z.add
      {| batch_dims := (2, 2); batch_rows := [[1; 2]%Z; [4; 5]%Z] |} 2
    = Raise (ScatterShapeError [3; 2] [2] (2, 2))
  ∧ vec_to_tri 0%Z Z.add {| batch_dims := (0, 2); batch_rows := [] |} 2
    = Raise (ScatterShapeError [3; 2] [2] (2, 2))
  ∧ ¬ ∃ out : list (list (list Z)),
        vec_to_tri 0%Z Z.add {| batch_dims := (0, 2); batch_rows := [] |} 2
        = Ok out.
Proof.
  assert (Hrect : rectangular
            {| batch_dims := (2, 2); batch_rows := [[1; 2]%Z; [4; 5]%Z] |}).
  { split; [reflexivity | repeat constructor]. }
  assert (Hrect0 : rectangular
            {| batch_dims := (0, 2); batch_rows := @nil (list Z) |}).
  { split; [reflexivity | constructor]. }
  destruct (vec_to_tri_succeeds_iff 0%Z Z.add _ 2 Hrect) as [_ Hraise].
  destruct (vec_to_tri_succeeds_iff 0%Z Z.add _ 2 Hrect0) as [Hiff _].
  split; [| split; [reflexivity | split; [reflexivity |]]].
  - apply (Hraise (ScatterShapeError [3; 2] [2] (2, 2)) eq_refl).
  - intros Hout. apply Hiff in Hout as [_ Hw]. discriminate Hw.
Defined.

(** [vec_to_tri] turns the element-wise sum of two vectors into the
    entry-wise sum of their matrices, for [N >= 1]. Adding to zero is
    taken to return the number added. *)
Theorem vec_to_tri_additive :
  ∀ (Scalar : Type) (szero : Scalar) (sadd : Scalar → Scalar → Scalar),
    (∀ x, sadd szero x = x) →
    ∀ (N : nat) (v w : list Scalar),
      0 < N →
      length v = N * (N + 1) / 2 → length w = N * (N + 1) / 2 →
      ∃ mv mw,
        vec_to_tri szero sadd (single v) N = Ok [mv]
        ∧ vec_to_tri szero sadd (single w) N = Ok [mw]
        ∧ vec_to_tri szero sadd (single (zip_with sadd v w)) N
          = Ok [zip_with (zip_with sadd) mv mw].
Proof.
  intros Scalar szero sadd Hzero N v w HN. rewrite <- tri_num_closed.
  intros Hv Hw.
  exists (tril_matrix szero sadd N v), (tril_matrix szero sadd N w).
  split; [by apply vec_to_tri_single |].
  split; [by apply vec_to_tri_single |].
  rewrite <- (tril_matrix_zip_with szero sadd Hzero) by done.
  apply vec_to_tri_single; [done |]. rewrite length_zip_with. lia.
Qed.

Lemma vec_to_tri_additive_witness :
  ∃ mv mw,
    vec_to_tri 0%Z Z.add (single [1; 2; 3]%Z) 2 = Ok [mv]
    ∧ vec_to_tri 0%Z Z.add (single [10; 20; 30]%Z) 2 = Ok [mw]
    ∧ vec_to_tri 0%Z Z.add
        (single (zip_with Z.add [1; 2; 3]%Z [10; 20; 30]%Z)) 2
      = Ok [zip_with (zip_with Z.add) mv mw].
Proof.
  apply (vec_to_tri_additive Z 0%Z Z.add Z.add_0_l 2 _ _ (Nat.lt_0_succ 1));
    reflexivity.
Defined.

(** For [N >= 1], every [N x N] matrix that is zero above the diagonal is
    the result of [vec_to_tri] on the vector read off its lower triangle,
    row by row and left to right within a row: with the round trip the
    other way, vectors of [N (N + 1) / 2] elements and lower-triangular
    matrices correspond one to one. Adding to zero is taken to return the
    number added. *)
Theorem vec_to_tri_of_read_tril :
  ∀ (Scalar : Type) (szero : Scalar) (sadd : Scalar → Scalar → Scalar),
    (∀ x, sadd szero x = x) →
    ∀ (N : nat) (m : list (list Scalar)),
      0 < N →
      square N m →
      (∀ r c, r < c → c < N → entry m (r, c) = Some szero) →
      ∃ v, read_lower_triangle N m = Some v
           ∧ length v = N * (N + 1) / 2
           ∧ vec_to_tri szero sadd (single v) N = Ok [m].
Proof.
  intros Scalar szero sadd Hzero N m HN Hsq Hupper.
  rewrite <- tri_num_closed.
  assert (Hsome : is_Some (read_lower_triangle N m)).
  { unfold read_lower_triangle. apply mapM_is_Some, Forall_forall.
    intros [r c] Hix. apply elem_of_tril_pairs in Hix.
    apply (entry_is_Some N); [done | lia..]. }
  destruct Hsome as [v Hv]. exists v. split; [done |].
  destruct (tril_matrix_read_tril szero sadd Hzero N m v Hsq Hupper Hv)
    as [Hlen Hm].
  split; [done |]. rewrite <- Hm. by apply vec_to_tri_single.
Qed.

Lemma vec_to_tri_of_read_tril_witness :
  ∃ v, read_lower_triangle 2 [[7; 0]; [8; 9]]%Z = Some v
       ∧ length v = 2 * (2 + 1) / 2
       ∧ vec_to_tri 0%Z Z.add (single v) 2 = Ok [[[7; 0]; [8; 9]]%Z].
Proof.
  apply (vec_to_tri_of_read_tril Z 0%Z Z.add Z.add_0_l 2 _ (Nat.lt_0_succ 1)).
  - split; [reflexivity | repeat constructor].
  - intros r c Hrc Hc.
    assert (r = 0 ∧ c = 1) as [-> ->] by lia. reflexivity.
Defined.

(** * Further properties of the SGPMC model *)

Section ModelMore.
Context {Scalar : Type} (szero sone : Scalar) (sadd : Scalar → Scalar → Scalar).
Context (alloc_failure : list Z → option exn).
Context {Kernel Feature Kwargs : Type}.
Context
  (GPModel___init__ :
     Tensor Scalar → Tensor Scalar → Kernel → Likelihood Scalar →
     option (MeanFunction Scalar) → Kwargs → result (GPModel Scalar Kernel))
  (inducingpoint_wrapper :
     option Feature → option (Tensor Scalar) → result Feature)
  (len : Feature → nat)
  (conditional :
     Feature → Kernel → Tensor Scalar → Tensor Scalar → bool →
     option (Tensor Scalar) → bool → Tensor Scalar * Tensor Scalar)
  (tf_add : Tensor Scalar → Tensor Scalar → Tensor Scalar).

Local Abbreviation world := (world Scalar Kernel Feature).
Local Abbreviation predict := (_build_predict conditional tf_add).
Local Abbreviation loglik :=
  (_build_likelihood szero sadd conditional tf_add).
Local Abbreviation init :=
  (__init__ szero sone alloc_failure GPModel___init__ inducingpoint_wrapper
     len).
Local Abbreviation init_steps :=
  (__init___steps szero sone alloc_failure GPModel___init__
     inducingpoint_wrapper len).

(** A negative [num_latent] never yields a model. When the base class,
    the row count of [X] and the feature wrapper all succeed, what is
    raised is numpy's error for a negative dimension. *)
Theorem __init___negative_num_latent X0 Y0 kern0 lik feat mf Z_ kwargs
    (n : Z) :
  (n < 0)%Z →
  (∀ m, init X0 Y0 kern0 lik feat mf (Some n) Z_ kwargs ≠ Ok m)
  ∧ (∀ g nd ft,
       GPModel___init__ X0 Y0 kern0 lik mf kwargs = Ok g →
       shape X0 !! 0 = Some nd →
       inducingpoint_wrapper feat Z_ = Ok ft →
       init X0 Y0 kern0 lik feat mf (Some n) Z_ kwargs
       = Raise (ValueError "negative dimensions are not allowed")).
Proof.
  intros Hn. split.
  - intros m Hinit.
    apply init_steps in Hinit as (g & nd & L & _ & _ & Hor & _).
    simpl in Hor. rewrite bool_decide_eq_true_2 in Hor by lia.
    injection Hor as ->. lia.
  - intros g nd ft Hg Hnd Hft.
    unfold __init__, mbind, result_mbind, result_bind, shape_at.
    rewrite Hg, Hnd. simpl. rewrite bool_decide_eq_true_2 by lia.
    rewrite Hft. unfold np_zeros. simpl.
    rewrite (bool_decide_eq_false_2 (0 ≤ n)%Z) by lia.
    by rewrite andb_false_r.
Qed.

(** With the base class, the row count of [X] and the feature wrapper
    succeeding: a positive [num_latent] builds a model whatever the shape
    of [Y], whose second dimension is then never asked for, provided
    there is room for [V]; where there is none, the error of [np.zeros]
    is raised. Without a [num_latent] (or with 0), the model is built
    when [Y] has a second dimension and there is room for [V], and an
    [IndexError] is raised when [Y] has no second dimension. *)
Theorem __init___Y_shape X0 Y0 kern0 lik feat mf Z_ kwargs g nd ft :
  GPModel___init__ X0 Y0 kern0 lik mf kwargs = Ok g →
  shape X0 !! 0 = Some nd →
  inducingpoint_wrapper feat Z_ = Ok ft →
  (∀ n, (0 < n)%Z →
     alloc_failure [Z.of_nat (len ft); n] = None →
     ∃ m, init X0 Y0 kern0 lik feat mf (Some n) Z_ kwargs = Ok m
          ∧ num_latent m = n ∧ num_data m = nd ∧ feature m = ft)
  ∧ (∀ n e, (0 < n)%Z →
       alloc_failure [Z.of_nat (len ft); n] = Some e →
       init X0 Y0 kern0 lik feat mf (Some n) Z_ kwargs = Raise e)
  ∧ (∀ a cols, falsy a → shape Y0 !! 1 = Some cols →
       alloc_failure [Z.of_nat (len ft); Z.of_nat cols] = None →
       ∃ m, init X0 Y0 kern0 lik feat mf a Z_ kwargs = Ok m
            ∧ num_latent m = Z.of_nat cols ∧ num_data m = nd
            ∧ feature m = ft)
  ∧ (∀ a, falsy a → shape Y0 !! 1 = None →
       init X0 Y0 kern0 lik feat mf a Z_ kwargs
       = Raise (IndexError "tuple index out of range")).
Proof.
  intros Hg Hnd Hft. split; [| split; [| split]].
  - intros n Hn Halloc.
    unfold __init__, mbind, result_mbind, result_bind, shape_at.
    rewrite Hg, Hnd. simpl. rewrite bool_decide_eq_true_2 by lia.
    rewrite Hft. unfold np_zeros. simpl.
    rewrite !bool_decide_eq_true_2 by lia. simpl. rewrite Halloc.
    by eexists.
  - intros n e Hn Halloc.
    unfold __init__, mbind, result_mbind, result_bind, shape_at.
    rewrite Hg, Hnd. simpl. rewrite bool_decide_eq_true_2 by lia.
    rewrite Hft. unfold np_zeros. simpl.
    rewrite !bool_decide_eq_true_2 by lia. simpl. by rewrite Halloc.
  - intros a cols Ha Hcols Halloc.
    unfold __init__, mbind, result_mbind, result_bind.
    rewrite Hg, (py_or_falsy a _ Ha). unfold shape_at.
    rewrite Hnd, Hcols. simpl. rewrite Hft. unfold np_zeros. simpl.
    rewrite !bool_decide_eq_true_2 by lia. simpl. rewrite Halloc.
    by eexists.
  - intros a Ha Hnone.
    unfold __init__, mbind, result_mbind, result_bind.
    rewrite Hg, (py_or_falsy a _ Ha). unfold shape_at.
    by rewrite Hnd, Hnone.
Qed.

(** Construction changes nothing of what the base class set up except
    the parameter list, which keeps its parameters in place and gains
    one; and [num_data] is the first dimension of the [X] given. *)
Theorem __init___base_attributes X0 Y0 kern0 lik feat mf nl Z_ kwargs m :
  init X0 Y0 kern0 lik feat mf nl Z_ kwargs = Ok m →
  ∃ g,
    GPModel___init__ X0 Y0 kern0 lik mf kwargs = Ok g
    ∧ X (base m) = X g
    ∧ Y (base m) = Y g
    ∧ kern (base m) = kern g
    ∧ likelihood (base m) = likelihood g
    ∧ mean_function (base m) = mean_function g
    ∧ shape X0 !! 0 = Some (num_data m)
    ∧ length (_parameters (base m)) = S (length (_parameters g))
    ∧ (∀ i p, _parameters g !! i = Some p →
         _parameters (base m) !! i = Some p).
Proof.
  intros Hinit.
  apply init_steps in Hinit
    as (g & nd & L & Hg & Hnd & _ & _ & Hdata & _ & _ & Hbase).
  exists g. rewrite Hbase. simpl.
  apply shape_at_Ok in Hnd. subst nd.
  repeat (split; [done |]). split.
  - rewrite length_app. simpl. lia.
  - intros i p Hp. rewrite lookup_app_l; [done |].
    by eapply lookup_lt_Some.
Qed.

(** The prediction is read off the feature set, the kernel, the mean
    function and the value of [V]: objects that agree on these predict
    alike, whatever their data, likelihood, prior or parameter list. *)
Theorem _build_predict_frame (w w' : world) (Xnew : Tensor Scalar)
    (full_cov : bool) :
  feature (self w) = feature (self w') →
  kern (base (self w)) = kern (base (self w')) →
  mean_function (base (self w)) = mean_function (base (self w')) →
  value (_V (self w)) = value (_V (self w')) →
  (predict Xnew full_cov w).1 = (predict Xnew full_cov w').1.
Proof.
  intros Hf Hk Hm Hv. rewrite !run__build_predict. simpl.
  by rewrite Hf, Hk, Hm, Hv.
Qed.

(** The likelihood term is read off the data, the likelihood, the
    feature set, the kernel, the mean function and the value of [V]: the
    prior and the name of [V], [num_data], [num_latent] and the parameter
    list have no part in it. *)
Theorem _build_likelihood_frame (w w' : world) :
  X (base (self w)) = X (base (self w')) →
  Y (base (self w)) = Y (base (self w')) →
  likelihood (base (self w)) = likelihood (base (self w')) →
  feature (self w) = feature (self w') →
  kern (base (self w)) = kern (base (self w')) →
  mean_function (base (self w)) = mean_function (base (self w')) →
  value (_V (self w)) = value (_V (self w')) →
  (loglik w).1 = (loglik w').1.
Proof.
  intros HX HY Hl Hf Hk Hm Hv.
  rewrite !run__build_likelihood, !run__build_predict. simpl.
  by rewrite HX, HY, Hl, Hf, Hk, Hm, Hv.
Qed.

(** A model just constructed predicts from an all-zero [V]: the
    conditional is given zeros of shape [(len(feature), num_latent)]. *)
Theorem __init___then__build_predict X0 Y0 kern0 lik feat mf nl Z_ kwargs m
    (w : world) (Xnew : Tensor Scalar) (full_cov : bool) :
  init X0 Y0 kern0 lik feat mf nl Z_ kwargs = Ok m →
  self w = m →
  ∃ L,
    num_latent m = Z.of_nat L
    ∧ let zeros := {| shape := [len (feature m); L];
                      data := replicate (len (feature m) * L) szero |} in
      let c := conditional (feature m) (kern (base m)) Xnew zeros
                 full_cov None true in
      (predict Xnew full_cov w).1
      = (tf_add c.1 (__call__ (mean_function (base m)) Xnew), c.2)
      ∧ calls (predict Xnew full_cov w).2
        = calls w ++
            [Call_conditional (feature m) (kern (base m)) Xnew zeros
               full_cov None true;
             Call_mean_function Xnew].
Proof.
  intros Hinit Hself.
  apply init_steps in Hinit as (g & nd & L & _ & _ & _ & _ & _ & HL & HV & _).
  exists L. split; [done |]. intros zeros c.
  rewrite run__build_predict. simpl. subst c zeros.
  rewrite Hself, HV. simpl. done.
Qed.

End ModelMore.

Lemma __init___negative_num_latent_witness :
  __init__ 0%Z 1%Z Toy.alloc_failure
    Toy.GPModel___init__ Toy.inducingpoint_wrapper Toy.len
    Toy.inputs Toy.targets () Toy.squared_error (Some 2) None
    (Some (-1)%Z) None ()
  = Raise (ValueError "negative dimensions are not allowed").
Proof.
  apply (proj2 (__init___negative_num_latent 0%Z 1%Z Toy.alloc_failure
    Toy.GPModel___init__
                  Toy.inducingpoint_wrapper Toy.len Toy.inputs Toy.targets ()
                  Toy.squared_error (Some 2) None None () (-1)%Z eq_refl)
           _ 3 2 eq_refl eq_refl eq_refl).
Defined.

(** A vector of targets, an array of rank 1; and a [num_latent] there is
    no room for. *)
Lemma __init___Y_shape_witness :
  let y1 : Tensor Z := {| shape := [3]; data := [1; 2; 3]%Z |} in
  (∃ m, __init__ 0%Z 1%Z Toy.alloc_failure
          Toy.GPModel___init__ Toy.inducingpoint_wrapper
          Toy.len Toy.inputs y1 () Toy.squared_error (Some 2) None
          (Some 1%Z) None () = Ok m
        ∧ num_latent m = 1%Z ∧ num_data m = 3 ∧ feature m = 2)
  ∧ __init__ 0%Z 1%Z Toy.alloc_failure
      Toy.GPModel___init__ Toy.inducingpoint_wrapper
      Toy.len Toy.inputs y1 () Toy.squared_error (Some 2) None
      (Some (2 ^ 63)%Z) None ()
    = Raise MemoryError
  ∧ __init__ 0%Z 1%Z Toy.alloc_failure
      Toy.GPModel___init__ Toy.inducingpoint_wrapper
      Toy.len Toy.inputs y1 () Toy.squared_error (Some 2) None
      None None ()
    = Raise (IndexError "tuple index out of range").
Proof.
  intros y1.
  destruct (__init___Y_shape 0%Z 1%Z Toy.alloc_failure Toy.GPModel___init__
              Toy.inducingpoint_wrapper Toy.len Toy.inputs y1 ()
              Toy.squared_error (Some 2) None None () _ 3 2
              eq_refl eq_refl eq_refl) as (Hpos & Hbig & _ & Hnone).
  split; [| split].
  - apply (Hpos 1%Z); [lia | reflexivity].
  - apply (Hbig (2 ^ 63)%Z); [lia | reflexivity].
  - apply (Hnone None); [by left | reflexivity].
Defined.

Lemma __init___base_attributes_witness :
  ∃ g, Toy.GPModel___init__ Toy.inputs Toy.targets () Toy.squared_error
         None () = Ok g
       ∧ X (base Toy.model) = X g
       ∧ shape Toy.inputs !! 0 = Some (num_data Toy.model)
       ∧ length (_parameters (base Toy.model)) = S (length (_parameters g)).
Proof.
  destruct (__init___base_attributes 0%Z 1%Z Toy.alloc_failure
    Toy.GPModel___init__
              Toy.inducingpoint_wrapper Toy.len Toy.inputs Toy.targets ()
              Toy.squared_error (Some 2) None None None () Toy.model eq_refl)
    as (g & Hg & HX & _ & _ & _ & _ & Hnd & Hlen & _).
  exists g. done.
Defined.

(** The small model with other targets and another likelihood. *)
Lemma _build_predict_frame_witness :
  let other : SGPMC Z unit nat :=
    {| base := {| X := Toy.inputs; Y := Toy.inputs; kern := ();
                  likelihood := {| variational_expectations Fmu Fvar Y := Y |};
                  mean_function := Toy.zero_mean; _parameters := [] |};
       num_data := 0; num_latent := 5; feature := 2; _V := Toy.V |} in
  (_build_predict Toy.conditional Toy.tf_add Toy.inputs true
     {| self := Toy.model; calls := [] |}).1
  = (_build_predict Toy.conditional Toy.tf_add Toy.inputs true
       {| self := other; calls := [] |}).1.
Proof.
  intros other.
  apply (_build_predict_frame Toy.conditional Toy.tf_add); reflexivity.
Defined.

(** The small model with another prior on [V] and no parameter list. *)
Lemma _build_likelihood_frame_witness :
  let other : SGPMC Z unit nat :=
    {| base := {| X := Toy.inputs; Y := Toy.targets; kern := ();
                  likelihood := Toy.squared_error;
                  mean_function := Toy.zero_mean; _parameters := [] |};
       num_data := 0; num_latent := 5; feature := 2;
       _V := set_prior Toy.V (Gaussian 3%Z 4%Z) |} in
  (_build_likelihood 0%Z Z.add Toy.conditional Toy.tf_add
     {| self := Toy.model; calls := [] |}).1
  = (_build_likelihood 0%Z Z.add Toy.conditional Toy.tf_add
       {| self := other; calls := [] |}).1.
Proof.
  intros other.
  apply (_build_likelihood_frame 0%Z Z.add Toy.conditional Toy.tf_add);
    reflexivity.
Defined.

Lemma __init___then__build_predict_witness :
  ∃ L, num_latent Toy.model = Z.of_nat L
       ∧ (_build_predict Toy.conditional Toy.tf_add Toy.inputs false
            {| self := Toy.model; calls := [] |}).1.2
         = (Toy.conditional 2 () Toy.inputs
              {| shape := [2; L]; data := replicate (2 * L) 0%Z |}
              false None true).2.
Proof.
  destruct (__init___then__build_predict 0%Z 1%Z Toy.alloc_failure
    Toy.GPModel___init__
              Toy.inducingpoint_wrapper Toy.len Toy.conditional Toy.tf_add
              Toy.inputs Toy.targets () Toy.squared_error (Some 2) None None
              None () Toy.model {| self := Toy.model; calls := [] |}
              Toy.inputs false eq_refl eq_refl) as (L & HL & Hpred & _).
  exists L. split; [exact HL |]. by rewrite Hpred.
Defined.
